(** * Ruuvi BLE bridge: advertisement decoder and request server

    A shallow embedding of [src/main.py] (MicroPython, Raspberry Pi Pico W):
    the [BLEScanner] class with its IRQ callback and the format-5 decoder, and
    the request handler of [start_webserver].

    Conventions of the embedding.
    - [bytes] objects are [list byte]; indexing raises [IndexError] out of
      range, slicing clamps to the object, as in Python.
    - Offsets and lengths are [nat] (the walk starts at 0 and only adds);
      decoded integers are [Z].
    - Python floats are modelled by exact rationals [Q]: the literal [0.005]
      is [5/1000], true division is division in [Q].  Rounding of the
      target's floating point is not modelled.
    - The program runs on MicroPython, whose dict is not ordered by
      insertion: the order in which a dict hands out its items is a
      parameter ([dict_items]) of [json.dumps]; [mp_dict_items] models
      MicroPython's hash table.
    - Methods run in a small state-and-exception monad over a [World] that
      holds the scanner object and the console (every [print] of the source
      appends one [line]). *)

From Stdlib Require Import List Arith ZArith QArith Lia Bool String Ascii.
From Stdlib Require Import Permutation.
From Stdlib Require Import Strings.Byte DecimalString.
From Equations Require Import Equations.
Import ListNotations.

Close Scope Q_scope.
Local Open Scope nat_scope.

(** ** Python values *)

Definition bytes := list byte.

(** [data[a:b]] for non-negative [a], [b]: clamped, empty when [b <= a]. *)
Definition slice (data : bytes) (a b : nat) : bytes :=
  firstn (b - a) (skipn a data).

(** [int.from_bytes(bs, 'big')]. *)
Definition from_bytes_big (bs : bytes) : Z :=
  fold_left (fun acc b => (acc * 256 + Z.of_nat (Byte.to_nat b))%Z) bs 0%Z.

Fixpoint bytes_eqb (a b : bytes) : bool :=
  match a, b with
  | [], [] => true
  | x :: a', y :: b' => Byte.eqb x y && bytes_eqb a' b'
  | _, _ => false
  end.

(** The dict stored in [self.latest_data] (keys in insertion order). *)
Record reading := mkReading {
  temperature : Q;
  humidity : Q;
  pressure : Q
}.

(** ** The world: scanner object and console *)

Record BLEScanner := mkScanner {
  latest_data : option reading;
  data_received : bool
}.

Inductive exn :=
| IndexError
| OSError (errno : Z)
| UnicodeError.

Inductive line :=
| FoundRuuviTag (adv_data : bytes)        (* main.py:42 *)
| ScanComplete                            (* main.py:45 *)
| ParsingData (data : bytes)              (* main.py:48 *)
| FoundManufacturerData                   (* main.py:59 *)
| FoundDataFormat5                        (* main.py:61 *)
| ParsedData (d : option reading)         (* main.py:75 *)
| NoRuuviDataFound                        (* main.py:79 *)
| ErrorParsingData (e : exn)              (* main.py:81 *)
| StartingBLEScan                         (* main.py:84 *)
| ClientConnected                         (* main.py:140 *)
| ReceivedRequest (request : string)      (* main.py:142 *)
| StartingNewBLEScan                      (* main.py:144 *)
| SendingData (d : reading)               (* main.py:149 *)
| NoDataAvailable                         (* main.py:151 *)
| SendingResponse (response_str : string) (* main.py:162 *)
| ErrorInConnectionHandler (e : exn).     (* main.py:172 *)

(** [scanner] is the one [BLEScanner] instance ([self] inside its methods),
    [stdout] the console, [led] the built-in LED pin, [wire] what has been
    written to client sockets. *)
Record World := mkWorld {
  scanner : BLEScanner;
  stdout : list line;
  led : bool;
  wire : list string
}.

(** ** State and exception monad *)

Inductive result (A : Type) :=
| Ok (a : A)
| Raise (e : exn).
Arguments Ok {A} a.
Arguments Raise {A} e.

Definition M (A : Type) := World -> result A * World.

Definition ret {A} (a : A) : M A := fun w => (Ok a, w).

Definition bind {A B} (m : M A) (k : A -> M B) : M B :=
  fun w => match m w with
           | (Ok a, w') => k a w'
           | (Raise e, w') => (Raise e, w')
           end.

Definition raise {A} (e : exn) : M A := fun w => (Raise e, w).

(** [try: body  except Exception as e: handler(e)]. *)
Definition try_except {A} (body : M A) (handler : exn -> M A) : M A :=
  fun w => match body w with
           | (Ok a, w') => (Ok a, w')
           | (Raise e, w') => handler e w'
           end.

Notation "x <- m ;; k" := (bind m (fun x => k))
  (at level 61, m at next level, right associativity).
Notation "m ;;; k" := (bind m (fun _ => k))
  (at level 61, right associativity).

Definition print (l : line) : M unit :=
  fun w => (Ok tt, mkWorld (scanner w) (stdout w ++ [l]) (led w) (wire w)).

Definition with_scanner (w : World) (sc : BLEScanner) : World :=
  mkWorld sc (stdout w) (led w) (wire w).

Definition get_latest_data : M (option reading) :=
  fun w => (Ok (latest_data (scanner w)), w).

Definition set_latest_data (d : option reading) : M unit :=
  fun w => (Ok tt, with_scanner w (mkScanner d (data_received (scanner w)))).

Definition set_data_received (b : bool) : M unit :=
  fun w => (Ok tt, with_scanner w (mkScanner (latest_data (scanner w)) b)).

(** [data[i]]: [IndexError] when [i] is out of range. *)
Definition getitem (data : bytes) (i : nat) : M byte :=
  match nth_error data i with
  | Some b => ret b
  | None => raise IndexError
  end.

(** ** The decoder: [BLEScanner.parse_ruuvi_data] *)

Definition RUUVI_DATA_FORMAT : nat := 5.

(** [b'\x99\x04'] *)
Definition ruuvi_manufacturer_id : bytes := [x99; x04].

(** What a [while] body did: ran to its end, or executed [return]. *)
Inductive flow := Fallthrough | Returned.

(** main.py:63-66.  The comparison is made on the scaled value. *)
Definition parse_temperature (mfg_data : bytes) : Q :=
  let temp := (inject_Z (from_bytes_big (slice mfg_data 3 5)) * (5 # 1000))%Q in
  if Qle_bool temp 32767%Q then temp else (temp - 65536)%Q.

(** main.py:67 *)
Definition parse_humidity (mfg_data : bytes) : Q :=
  (inject_Z (from_bytes_big (slice mfg_data 5 7)) * (25 # 10000))%Q.

(** main.py:68 and the division of main.py:73 *)
Definition parse_pressure (mfg_data : bytes) : Q :=
  (inject_Z (from_bytes_big (slice mfg_data 7 9) + 50000) / 100)%Q.

(** main.py:54-77: the body of the loop below [length = data[i]], up to but
    not including [i += length + 1]. *)
Definition loop_body (data : bytes) (i : nat) (len : byte) : M flow :=
  if i + 1 <? List.length data then
    type_id <- getitem data (i + 1) ;;
    if Byte.eqb type_id xff then
      let mfg_data := slice data (i + 2) (i + Byte.to_nat len + 1) in
      if bytes_eqb (slice mfg_data 0 2) ruuvi_manufacturer_id then
        print FoundManufacturerData ;;;
        fmt <- getitem mfg_data 2 ;;
        if Byte.to_nat fmt =? RUUVI_DATA_FORMAT then
          print FoundDataFormat5 ;;;
          let temp := parse_temperature mfg_data in
          let humidity := parse_humidity mfg_data in
          let pressure := parse_pressure mfg_data in
          set_latest_data (Some (mkReading temp humidity pressure)) ;;;
          d <- get_latest_data ;;
          print (ParsedData d) ;;;
          set_data_received true ;;;
          ret Returned
        else ret Fallthrough
      else ret Fallthrough
    else ret Fallthrough
  else ret Fallthrough.

(** main.py:52-78: [while i < len(data): ...; i += length + 1]. *)
Equations? while_loop (data : bytes) (i : nat) (w : World) : result flow * World
  by wf (List.length data - i) lt :=
while_loop data i w with le_lt_dec (List.length data) i := {
  | left _ => (Ok Fallthrough, w)
  | right Hlt with getitem data i w := {
    | (Raise e, w') => (Raise e, w')
    | (Ok len, w') with loop_body data i len w' := {
      | (Ok Fallthrough, w'') => while_loop data (i + Byte.to_nat len + 1) w''
      | r => r } } }.
Proof. lia. Qed.

(** main.py:47-81 *)
Definition parse_ruuvi_data (data : bytes) : M unit :=
  print (ParsingData data) ;;;
  try_except
    (r <- while_loop data 0 ;;
     match r with
     | Returned => ret tt
     | Fallthrough => print NoRuuviDataFound
     end)
    (fun e => print (ErrorParsingData e)).

(** ** The IRQ callback: [BLEScanner.ble_irq] *)

Definition _IRQ_SCAN_RESULT : Z := 5.
Definition _IRQ_SCAN_DONE : Z := 6.

(** The tuple handed to the callback with a scan result. *)
Record scan_result := mkScanResult {
  addr_type : Z;
  addr : bytes;
  adv_type : Z;
  rssi : Z;
  adv_data : bytes
}.

Definition hex_digit (n : nat) : ascii :=
  if n <? 10 then ascii_of_nat (48 + n) else ascii_of_nat (87 + n).

(** ['%02x' % i] for a byte [i]. *)
Definition format_02x (b : byte) : string :=
  let n := Byte.to_nat b in
  String (hex_digit (n / 16)) (String (hex_digit (n mod 16)) EmptyString).

Definition lower_char (c : ascii) : ascii :=
  let n := nat_of_ascii c in
  if (65 <=? n) && (n <=? 90) then ascii_of_nat (n + 32) else c.

(** [str.lower()] on ASCII text. *)
Fixpoint lower (s : string) : string :=
  match s with
  | EmptyString => EmptyString
  | String c s' => String (lower_char c) (lower s')
  end.

(** [':'.join(['%02x' % i for i in addr])] *)
Definition format_addr (a : bytes) : string :=
  String.concat ":" (map format_02x a).

Section Bridge.

(** [RUUVI_MAC] comes from [config.py]. *)
Variable RUUVI_MAC : string.

(** main.py:37-45 *)
Definition ble_irq (event : Z) (data : scan_result) : M unit :=
  if (event =? _IRQ_SCAN_RESULT)%Z then
    let addr := format_addr (addr data) in
    if String.eqb (lower addr) (lower RUUVI_MAC) then
      print (FoundRuuviTag (adv_data data)) ;;;
      parse_ruuvi_data (adv_data data)
    else ret tt
  else if (event =? _IRQ_SCAN_DONE)%Z then
    print ScanComplete
  else ret tt.

(** ** The request server: [start_webserver] *)

(** [json.dumps] of a float and [time.ticks_diff] are platform functions. *)
Variable float_repr : Q -> string.
Variable ticks_diff : Z -> Z -> Z.

Inductive json := JNull | JFloat (q : Q).

(** The order in which the platform's dict hands out its items; the source
    fixes the order of insertion only.  CPython iterates in insertion order,
    MicroPython by hash-table slot (see [mp_dict_items] below). *)
Variable dict_items : list (string * json) -> list (string * json).

Definition dq : string := String "034"%char EmptyString.
Definition crlf : string := String "013"%char (String "010"%char EmptyString).

Definition json_dumps_value (v : json) : string :=
  match v with
  | JNull => "null"
  | JFloat q => float_repr q
  end.

(** One member of a JSON object: ["key": value]. *)
Definition json_member (kv : string * json) : string :=
  (dq ++ fst kv ++ dq ++ ": " ++ json_dumps_value (snd kv))%string.

(** [json.dumps] of a dict with string keys, given as the list of its items
    in insertion order; the members are written in the dict's own
    iteration order. *)
Definition json_dumps (d : list (string * json)) : string :=
  ("{" ++ String.concat ", " (map json_member (dict_items d)) ++ "}")%string.

(** main.py:153-157 *)
Definition response (latest : option reading) : list (string * json) :=
  [ ("temperature"%string,
     match latest with Some d => JFloat (temperature d) | None => JNull end);
    ("humidity"%string,
     match latest with Some d => JFloat (humidity d) | None => JNull end);
    ("pressure"%string,
     match latest with Some d => JFloat (pressure d) | None => JNull end) ].

Definition str_of_nat (n : nat) : string :=
  NilZero.string_of_uint (Nat.to_uint n).

(** main.py:160 *)
Definition response_str (response_json : string) : string :=
  ("HTTP/1.0 200 OK" ++ crlf ++
   "Content-Type: application/json" ++ crlf ++
   "Content-Length: " ++ str_of_nat (String.length response_json) ++ crlf ++
   "Access-Control-Allow-Origin: *" ++ crlf ++ crlf ++
   response_json)%string.

(** What the environment does with one accepted client: the result of
    [cl.recv(1024).decode()], of [gap_scan], the IRQs the radio delivers
    during [time.sleep(1)], and the result of [cl.send]. *)
Record client := mkClient {
  recv : result string;
  gap_scan : result unit;
  irqs : list (Z * scan_result);
  send : result unit
}.

(** An I/O call whose outcome the environment decides. *)
Definition lift {A} (r : result A) : M A := fun w => (r, w).

(** The radio calls [ble_irq] once per event; the callback's result does
    not reach the sleeping caller. *)
Fixpoint deliver (evs : list (Z * scan_result)) : M unit :=
  match evs with
  | [] => ret tt
  | (event, data) :: rest =>
      fun w => deliver rest (snd (ble_irq event data w))
  end.

(** main.py:83-85 *)
Definition start_scan (c : client) : M unit :=
  print StartingBLEScan ;;;
  lift (gap_scan c).

(** main.py:163: [cl.send(response_str.encode())]. *)
Definition cl_send (c : client) (s : string) : M unit :=
  lift (send c) ;;;
  fun w => (Ok tt, mkWorld (scanner w) (stdout w) (led w) (wire w ++ [s])).

(** main.py:140-165, after [s.accept()] returned the client. *)
Definition handle_client (c : client) : M unit :=
  print ClientConnected ;;;
  request <- lift (recv c) ;;
  print (ReceivedRequest request) ;;;
  print StartingNewBLEScan ;;;
  start_scan c ;;;
  deliver (irqs c) ;;;
  latest <- get_latest_data ;;
  match latest with
  | Some d => print (SendingData d)
  | None => print NoDataAvailable
  end ;;;
  latest <- get_latest_data ;;
  let response_json := json_dumps (response latest) in
  let rs := response_str response_json in
  print (SendingResponse rs) ;;;
  cl_send c rs ;;;
  set_data_received false.

(** The locals of the loop. *)
Record timers := mkTimers {
  last_blink : Z;
  blink_interval : Z
}.

(** What [s.accept()] does in one iteration. *)
Inductive accepted :=
| AcceptRaises (errno : Z)
| Accepted (c : client).

(** main.py:166-176: an [OSError] with errno 11 (EAGAIN, the accept
    timeout) is swallowed by [continue]; everything else reaches the outer
    [except] and is printed. *)
Definition connection_error (e : exn) : M unit :=
  match e with
  | OSError errno =>
      if (errno =? 11)%Z then ret tt
      else print (ErrorInConnectionHandler e)
  | _ => print (ErrorInConnectionHandler e)
  end.

(** main.py:24-25 *)
Definition blink_led : M unit :=
  fun w => (Ok tt, mkWorld (scanner w) (stdout w) (negb (led w)) (wire w)).

(** main.py:124-176: one iteration of [while True], at time
    [current_time]. *)
Definition iteration (current_time : Z) (a : accepted) (t : timers)
  : World -> timers * World :=
  fun w =>
    let blink_interval :=
      if data_received (scanner w) then 500%Z else 1000%Z in
    let '(last, w1) :=
      if (ticks_diff current_time (last_blink t) >=? blink_interval)%Z
      then (current_time, snd (blink_led w))
      else (last_blink t, w) in
    let t' := mkTimers last blink_interval in
    let attempt : M unit :=
      match a with
      | AcceptRaises errno => raise (OSError errno)
      | Accepted c => handle_client c
      end in
    (t', snd (try_except attempt connection_error w1)).

End Bridge.

(** ** The dict of the target platform

    [main.py] imports [machine], [bluetooth] and [micropython]: it runs on
    MicroPython.  What follows is modelled from MicroPython's interpreter
    ([py/qstr.c], [py/map.c], [py/objdict.c]), which is not part of the
    repository.  A dict literal of [n] items is a hash table of [n] slots;
    a key is put in the first free slot from [hash mod n] on, and the dict
    is iterated slot by slot.  The hash of a string key is djb2 with xor,
    kept to [hash_bits] bits and never 0. *)
Fixpoint qstr_compute_hash (s : string) (hash : N) : N :=
  match s with
  | EmptyString => hash
  | String c s' =>
      qstr_compute_hash s'
        (N.lxor (N.modulo (hash * 33) (2 ^ 32)) (N_of_ascii c))
  end.

Definition qstr_hash (hash_bits : N) (s : string) : N :=
  let h := N.land (qstr_compute_hash s 5381) (2 ^ hash_bits - 1) in
  if (h =? 0)%N then 1%N else h.

Section MpMap.

Context {V : Type}.

(** The table after storing [kv]: probe [fuel] slots from [pos] on. *)
Fixpoint mp_map_store (fuel : nat) (pos : nat) (kv : string * V)
    (table : list (option (string * V))) : list (option (string * V)) :=
  match fuel with
  | 0 => table
  | S fuel' =>
      match nth pos table None with
      | None => firstn pos table ++ Some kv :: skipn (S pos) table
      | Some (k, _) =>
          if String.eqb k (fst kv)
          then firstn pos table ++ Some kv :: skipn (S pos) table
          else mp_map_store fuel' (S pos mod List.length table) kv table
      end
  end.

Definition mp_map_add (hash_bits : N) (table : list (option (string * V)))
    (kv : string * V) : list (option (string * V)) :=
  let alloc := List.length table in
  mp_map_store alloc (N.to_nat (qstr_hash hash_bits (fst kv)) mod alloc)
               kv table.

Fixpoint mp_map_slots (table : list (option (string * V)))
  : list (string * V) :=
  match table with
  | [] => []
  | None :: rest => mp_map_slots rest
  | Some kv :: rest => kv :: mp_map_slots rest
  end.

(** The items of a dict literal in iteration order, with the 16-bit
    string hashes of the standard build. *)
Definition mp_dict_items (d : list (string * V)) : list (string * V) :=
  mp_map_slots
    (fold_left (mp_map_add 16) d (repeat None (List.length d))).

(** The same in a build with 8-bit string hashes. *)
Definition mp_dict_items_8 (d : list (string * V)) : list (string * V) :=
  mp_map_slots
    (fold_left (mp_map_add 8) d (repeat None (List.length d))).

End MpMap.


(** ** The fuelled reading of the loop

    [run fuel] executes at most [fuel] iterations of the same loop and
    answers [None] when the fuel is gone before the loop condition fails. *)
Fixpoint run (fuel : nat) (data : bytes) (i : nat) (w : World)
  : option (result flow * World) :=
  if i <? List.length data then
    match fuel with
    | 0 => None
    | S fuel' =>
        match getitem data i w with
        | (Raise e, w') => Some (Raise e, w')
        | (Ok len, w') =>
            match loop_body data i len w' with
            | (Ok Fallthrough, w'') =>
                run fuel' data (i + Byte.to_nat len + 1) w''
            | r => Some r
            end
        end
    end
  else Some (Ok Fallthrough, w).

(** ** AD structures of a payload

    The offsets at which the type-length-value framing of a payload puts a
    length byte: 0, and the offset after each structure. *)
Inductive ad_offset (data : bytes) : nat -> Prop :=
| ad_first : ad_offset data 0
| ad_next i len j :
    ad_offset data i ->
    nth_error data i = Some len ->
    j = i + Byte.to_nat len + 1 ->
    ad_offset data j.

(** The same offsets, computed. *)
Fixpoint ad_offsets_from (fuel : nat) (data : bytes) (i : nat) : list nat :=
  match fuel with
  | 0 => []
  | S fuel' =>
      match nth_error data i with
      | None => []
      | Some len => i :: ad_offsets_from fuel' data (i + Byte.to_nat len + 1)
      end
  end.

Definition ad_offsets (data : bytes) : list nat :=
  ad_offsets_from (List.length data) data 0.

(** The value bytes the decoder takes for the structure at [i] with length
    byte [len] (main.py:57). *)
Definition mfg_data_at (data : bytes) (i : nat) (len : byte) : bytes :=
  slice data (i + 2) (i + Byte.to_nat len + 1).

(** The structure at [i] has a type byte, and it is 0xFF. *)
Definition is_manufacturer_data (data : bytes) (i : nat) : bool :=
  match nth_error data (i + 1) with
  | Some type_id => Byte.eqb type_id xff
  | None => false
  end.

(** ... and its value starts with the vendor ID 0x99 0x04. *)
Definition has_ruuvi_id (data : bytes) (i : nat) (len : byte) : bool :=
  is_manufacturer_data data i &&
  bytes_eqb (slice (mfg_data_at data i len) 0 2) ruuvi_manufacturer_id.

(** The dict built at main.py:70-74 from a structure's value bytes. *)
Definition reading_of (mfg_data : bytes) : reading :=
  mkReading (parse_temperature mfg_data) (parse_humidity mfg_data)
            (parse_pressure mfg_data).

Definition returned (r : result flow) : bool :=
  match r with
  | Ok Returned => true
  | _ => false
  end.

(** ** Derived notions used in the statements *)

(** The world after the success path of main.py:61-76, entered in [w]. *)
Definition decoded_world (mfg_data : bytes) (w : World) : World :=
  mkWorld (mkScanner (Some (reading_of mfg_data)) true)
          ((stdout w ++ [FoundDataFormat5])
             ++ [ParsedData (Some (reading_of mfg_data))])
          (led w) (wire w).

(** A client whose request is read, whose scan starts and whose response
    is written without an I/O error. *)
Definition served (c : client) : bool :=
  match recv c, gap_scan c, send c with
  | Ok _, Ok _, Ok _ => true
  | _, _, _ => false
  end.

(** The first line of every response. *)
Definition status_line : string := ("HTTP/1.0 200 OK" ++ crlf)%string.

(** [{"temperature": null, "humidity": null, "pressure": null}] *)
Definition null_body : string :=
  ("{" ++ dq ++ "temperature" ++ dq ++ ": null, "
       ++ dq ++ "humidity" ++ dq ++ ": null, "
       ++ dq ++ "pressure" ++ dq ++ ": null}")%string.


(** [{"humidity": null, "pressure": null, "temperature": null}] *)
Definition mp_null_body : string :=
  ("{" ++ dq ++ "humidity" ++ dq ++ ": null, "
       ++ dq ++ "pressure" ++ dq ++ ": null, "
       ++ dq ++ "temperature" ++ dq ++ ": null}")%string.

(** ** Payloads and worlds used as examples *)

(** The world right after [BLEScanner.__init__]. *)
Definition boot : World := mkWorld (mkScanner None false) [] false [].

(** Flags structure, then a format-5 structure: temperature raw 0x0139,
    humidity raw 0x1770, pressure raw 0x4E20. *)
Definition fixture : bytes :=
  [x02; x01; x06;
   x0a; xff; x99; x04; x05; x01; x39; x17; x70; x4e; x20].

(** The same with temperature raw 0xFF9C. *)
Definition fixture_negative : bytes :=
  [x02; x01; x06;
   x0a; xff; x99; x04; x05; xff; x9c; x17; x70; x4e; x20].

(** A world in which a reading decoded from [fixture] waits to be served. *)
Definition fresh_world : World :=
  mkWorld (mkScanner (Some (reading_of (mfg_data_at fixture 3 x0a))) true)
          [] false [].

(** The address bytes of the tag aa:bb:cc:dd:ee:ff. *)
Definition tag_addr : bytes := [xaa; xbb; xcc; xdd; xee; xff].

(** A client for which every socket call succeeds, with a quiet radio. *)
Definition plain_client : client :=
  mkClient (Ok "GET / HTTP/1.1"%string) (Ok tt) [] (Ok tt).

(** A payload whose only structure declares 30 bytes and holds 2. *)
Definition overlong_foreign : bytes := [x1e; xff; x99].

(** The vendor ID and nothing after it: [mfg_data[2]] raises. *)
Definition vendor_id_only : bytes := [x03; xff; x99; x04].

(** One structure that declares 31 bytes and holds 6: type 0xFF, vendor ID,
    format 5 and the two temperature bytes. *)
Definition overlong_ruuvi : bytes := [x1f; xff; x99; x04; x05; x01; x39].

(** A vendor structure with format byte 3, then the format-5 structure of
    [fixture]. *)
Definition format3_then_format5 : bytes :=
  [x04; xff; x99; x04; x03;
   x0a; xff; x99; x04; x05; x01; x39; x17; x70; x4e; x20].

(** ** The finite prefixes of the server loop

    [while True] of main.py:123 never ends by itself; [serve_loop] runs the
    iterations for which the environment is given, one [(time, accept)]
    pair each. *)
Fixpoint serve_loop (RUUVI_MAC : string) (float_repr : Q -> string)
    (ticks_diff : Z -> Z -> Z)
    (dict_items : list (string * json) -> list (string * json))
    (evs : list (Z * accepted))
    (t : timers) (w : World) : timers * World :=
  match evs with
  | [] => (t, w)
  | (current_time, a) :: rest =>
      let '(t', w') :=
        iteration RUUVI_MAC float_repr ticks_diff dict_items current_time a t w in
      serve_loop RUUVI_MAC float_repr ticks_diff dict_items rest t' w'
  end.

(** An iteration in which a client is accepted and served. *)
Definition is_served (a : accepted) : bool :=
  match a with
  | AcceptRaises _ => false
  | Accepted c => served c
  end.

(** ** Joining the network: [connect_wifi]

    The WLAN driver is the environment: [status k] is what the [k]-th call
    of [wlan.status()] answers, [ip] is [wlan.ifconfig()[0]].  The state
    counts the calls made and the seconds slept and keeps the console. *)
Inductive wifi_line :=
| ConnectingToWiFi                        (* main.py:88 *)
| WaitingForConnection                    (* main.py:99 *)
| WifiConnected                           (* main.py:105 *)
| WifiIP (ip : string).                   (* main.py:107 *)

Record wlan := mkWlan {
  polls : nat;
  slept : nat;
  wifi_out : list wifi_line
}.

(** [RuntimeError('Network connection failed')] or the returned address. *)
Inductive wifi_outcome :=
| NetworkConnectionFailed
| ReturnsIP (ip : string).

Section Wifi.

Variable status : nat -> Z.
Variable ip : string.

(** main.py:95-100.  The condition of the [if] calls [wlan.status()] once
    when the first answer is negative and twice otherwise. *)
Fixpoint wait_for_connection (max_wait : nat) (st : wlan) : wlan :=
  match max_wait with
  | 0 => st
  | S max_wait' =>
      if (status (polls st) <? 0)%Z then
        mkWlan (polls st + 1) (slept st) (wifi_out st)
      else if (status (polls st + 1) >=? 3)%Z then
        mkWlan (polls st + 2) (slept st) (wifi_out st)
      else
        wait_for_connection max_wait'
          (mkWlan (polls st + 2) (slept st + 1)
                  (wifi_out st ++ [WaitingForConnection]))
  end.

(** main.py:87-108 *)
Definition connect_wifi (st : wlan) : wifi_outcome * wlan :=
  let st1 := mkWlan (polls st) (slept st) (wifi_out st ++ [ConnectingToWiFi]) in
  let st2 := wait_for_connection 10 st1 in
  if negb (status (polls st2) =? 3)%Z then
    (NetworkConnectionFailed,
     mkWlan (polls st2 + 1) (slept st2) (wifi_out st2))
  else
    (ReturnsIP ip,
     mkWlan (polls st2 + 1) (slept st2)
            (wifi_out st2 ++ [WifiConnected; WifiIP ip])).

End Wifi.

(** ** Structures the walk steps over

    [passes data i j]: started at offset [i], the walk reaches offset [j]
    because every structure in between is stepped over: it is not the
    vendor's, or it is the vendor's with a format byte other than 5. *)
Definition stepped_over (data : bytes) (i : nat) (len : byte) : Prop :=
  has_ruuvi_id data i len = false \/
  exists fmt, nth_error (mfg_data_at data i len) 2 = Some fmt /\
              Byte.to_nat fmt <> RUUVI_DATA_FORMAT.

Inductive passes (data : bytes) : nat -> nat -> Prop :=
| passes_here i : passes data i i
| passes_step i len j :
    nth_error data i = Some len ->
    stepped_over data i len ->
    passes data (i + Byte.to_nat len + 1) j ->
    passes data i j.

(** The new-data flag is only up when a reading is stored. *)
Definition consistent (sc : BLEScanner) : Prop :=
  data_received sc = true -> latest_data sc <> None.

(** The wlan driver before [connect_wifi] is called. *)
Definition wlan0 : wlan := mkWlan 0 0 [].

(** A bare vendor ID in front of the format-5 structure of [fixture]. *)
Definition bare_id_then_format5 : bytes :=
  [x03; xff; x99; x04;
   x0a; xff; x99; x04; x05; x01; x39; x17; x70; x4e; x20].

(** Reading ['%02x'] back, to tell formatted addresses apart. *)
Definition hex_value (c : ascii) : nat :=
  let n := nat_of_ascii c in
  if n <? 58 then n - 48 else n - 87.

Definition byte_of_02x (s : string) : option byte :=
  match s with
  | String c1 (String c2 _) => Byte.of_nat (16 * hex_value c1 + hex_value c2)
  | _ => None
  end.

(** A client served while the radio reports the tag with [fixture]. *)
Definition client_during_scan : client :=
  mkClient (Ok "GET / HTTP/1.1"%string) (Ok tt)
           [(_IRQ_SCAN_RESULT, mkScanResult 0 tag_addr 0 (-70) fixture);
            (_IRQ_SCAN_DONE, mkScanResult 0 [] 0 0 [])]
           (Ok tt).

(** A client whose socket fails when the response is written. *)
Definition client_send_fails : client :=
  mkClient (Ok "GET / HTTP/1.1"%string) (Ok tt) [] (Raise (OSError 104)).

(** Three iterations: an accept timeout, a served client, another timeout. *)
Definition three_ticks : list (Z * accepted) :=
  [(100%Z, AcceptRaises 11); (200%Z, Accepted client_during_scan);
   (1400%Z, AcceptRaises 11)].

(** Driver answers used as examples: still connecting for ever; link up
    from the sixth call on; a failure reported from the third call on. *)
Definition status_connecting : nat -> Z := fun _ => 1%Z.

Definition status_up_from_5 : nat -> Z :=
  fun k => if k <? 5 then 1%Z else 3%Z.

Definition status_fails_from_2 : nat -> Z :=
  fun k => if k <? 2 then 1%Z else (-1)%Z.

(** A vendor structure with format byte 3, then a bare vendor ID. *)
Definition format3_then_bare_id : bytes :=
  [x04; xff; x99; x04; x03; x03; xff; x99; x04].

(** * Properties *)

(** ** Bytes and slices *)

Lemma bytes_eqb_eq a b : bytes_eqb a b = true <-> a = b.
Proof.
  revert b; induction a as [|x a IH]; intros [|y b]; simpl;
    try (split; [discriminate | congruence]); try tauto.
  rewrite andb_true_iff, IH. split.
  - intros [H ->]. apply Byte.byte_dec_bl in H. now subst.
  - intros [= -> ->]. split; [now apply Byte.byte_dec_lb | reflexivity].
Qed.

Lemma slice_clamped data a b :
  List.length data <= b -> slice data a b = skipn a data.
Proof.
  intros H. unfold slice. apply firstn_all2. rewrite length_skipn. lia.
Qed.

Lemma from_bytes_big_2 a b :
  from_bytes_big [a; b] =
  (256 * Z.of_nat (Byte.to_nat a) + Z.of_nat (Byte.to_nat b))%Z.
Proof. unfold from_bytes_big. cbn [fold_left]. lia. Qed.

Lemma from_bytes_big_nonneg_acc bs acc :
  (0 <= acc)%Z ->
  (0 <= fold_left (fun acc b => acc * 256 + Z.of_nat (Byte.to_nat b)) bs acc)%Z.
Proof.
  revert acc; induction bs as [|b bs IH]; intros acc H; cbn [fold_left]; [assumption|].
  apply IH. lia.
Qed.

Lemma from_bytes_big_bound_acc bs acc n :
  (0 <= acc < 256 ^ Z.of_nat n)%Z ->
  (fold_left (fun acc b => acc * 256 + Z.of_nat (Byte.to_nat b)) bs acc
   < 256 ^ Z.of_nat (n + List.length bs))%Z.
Proof.
  revert acc n; induction bs as [|b bs IH]; intros acc n H; cbn [fold_left List.length].
  - now rewrite Nat.add_0_r.
  - replace (n + S (List.length bs)) with (S n + List.length bs) by lia.
    apply IH. pose proof (Byte.to_nat_bounded b).
    rewrite Nat2Z.inj_succ, Z.pow_succ_r by apply Nat2Z.is_nonneg. lia.
Qed.

Lemma from_bytes_big_range bs :
  (0 <= from_bytes_big bs < 256 ^ Z.of_nat (List.length bs))%Z.
Proof.
  split.
  - apply from_bytes_big_nonneg_acc. lia.
  - apply (from_bytes_big_bound_acc bs 0%Z 0). simpl. lia.
Qed.

Lemma slice_length_le data a b : List.length (slice data a b) <= b - a.
Proof. unfold slice. rewrite length_firstn. lia. Qed.

(** ** One iteration *)

Lemma loop_body_spec data i len w :
  loop_body data i len w =
  if has_ruuvi_id data i len then
    let mfg_data := mfg_data_at data i len in
    let w1 := snd (print FoundManufacturerData w) in
    match nth_error mfg_data 2 with
    | None => (Raise IndexError, w1)
    | Some fmt =>
        if Byte.to_nat fmt =? RUUVI_DATA_FORMAT
        then (Ok Returned, decoded_world mfg_data w1)
        else (Ok Fallthrough, w1)
    end
  else (Ok Fallthrough, w).
Proof.
  unfold loop_body, has_ruuvi_id, is_manufacturer_data, mfg_data_at.
  destruct (i + 1 <? List.length data) eqn:Hlen.
  - apply Nat.ltb_lt in Hlen.
    destruct (nth_error data (i + 1)) as [type_id|] eqn:Hty.
    2:{ apply nth_error_None in Hty. lia. }
    unfold bind at 1. unfold getitem at 1. rewrite Hty. unfold ret at 1.
    destruct (Byte.eqb type_id xff); [|reflexivity].
    cbn [andb].
    destruct (bytes_eqb _ ruuvi_manufacturer_id); [|reflexivity].
    unfold bind at 1. cbn [print snd].
    unfold bind at 1. unfold getitem at 1.
    destruct (nth_error _ 2) as [fmt|]; [|reflexivity].
    unfold ret at 1.
    destruct (Byte.to_nat fmt =? RUUVI_DATA_FORMAT); reflexivity.
  - apply Nat.ltb_ge in Hlen.
    assert (nth_error data (i + 1) = None) as -> by (apply nth_error_None; lia).
    reflexivity.
Qed.

Lemma while_loop_unroll data i w :
  while_loop data i w =
  if i <? List.length data then
    match getitem data i w with
    | (Raise e, w') => (Raise e, w')
    | (Ok len, w') =>
        match loop_body data i len w' with
        | (Ok Fallthrough, w'') =>
            while_loop data (i + Byte.to_nat len + 1) w''
        | r => r
        end
    end
  else (Ok Fallthrough, w).
Proof.
  rewrite while_loop_equation_1.
  destruct (le_lt_dec (List.length data) i) as [Hge|Hlt].
  - assert ((i <? List.length data) = false) as -> by (apply Nat.ltb_ge; lia).
    reflexivity.
  - assert ((i <? List.length data) = true) as -> by (apply Nat.ltb_lt; lia).
    cbn. destruct (getitem data i w) as [[len|e] w']; cbn; [|reflexivity].
    destruct (loop_body data i len w') as [[[|]|e] w'']; reflexivity.
Qed.

(** Inside the payload [data[i]] is the byte at [i] and changes nothing. *)
Lemma getitem_inside data i w :
  i < List.length data ->
  exists len, nth_error data i = Some len /\ getitem data i w = (Ok len, w).
Proof.
  intros H. destruct (nth_error data i) as [len|] eqn:E.
  - exists len. split; [reflexivity|]. unfold getitem. now rewrite E.
  - apply nth_error_None in E. lia.
Qed.

(** The three ways an iteration at an AD structure ends. *)
Lemma while_loop_step data i len w :
  nth_error data i = Some len ->
  while_loop data i w =
  match loop_body data i len w with
  | (Ok Fallthrough, w') => while_loop data (i + Byte.to_nat len + 1) w'
  | r => r
  end.
Proof.
  intros H. rewrite while_loop_unroll.
  assert (i < List.length data) as Hlt
    by (apply nth_error_Some; congruence).
  apply Nat.ltb_lt in Hlt. rewrite Hlt.
  unfold getitem. rewrite H. unfold ret.
  destruct (loop_body data i len w) as [[[|]|e] w']; reflexivity.
Qed.

Lemma while_loop_exit data i w :
  List.length data <= i -> while_loop data i w = (Ok Fallthrough, w).
Proof.
  intros H. rewrite while_loop_unroll.
  assert ((i <? List.length data) = false) as -> by (apply Nat.ltb_ge; lia).
  reflexivity.
Qed.

(** ** Induction along the walk

    The five ways the loop proceeds from offset [i]: the loop condition
    fails; the structure is not the vendor's and is stepped over; the
    vendor ID is there but no format byte ([mfg_data[2]] raises); the format
    byte is not 5 and the structure is stepped over; the format byte is 5
    and the method returns. *)
Section WalkInd.

Variable data : bytes.
Variable P : nat -> World -> result flow * World -> Prop.

Hypothesis P_exit : forall i w,
  List.length data <= i -> P i w (Ok Fallthrough, w).

Hypothesis P_skip : forall i len w,
  nth_error data i = Some len ->
  has_ruuvi_id data i len = false ->
  P (i + Byte.to_nat len + 1) w (while_loop data (i + Byte.to_nat len + 1) w) ->
  P i w (while_loop data (i + Byte.to_nat len + 1) w).

Hypothesis P_short : forall i len w,
  nth_error data i = Some len ->
  has_ruuvi_id data i len = true ->
  nth_error (mfg_data_at data i len) 2 = None ->
  P i w (Raise IndexError, snd (print FoundManufacturerData w)).

Hypothesis P_other : forall i len fmt w,
  nth_error data i = Some len ->
  has_ruuvi_id data i len = true ->
  nth_error (mfg_data_at data i len) 2 = Some fmt ->
  Byte.to_nat fmt <> RUUVI_DATA_FORMAT ->
  let w1 := snd (print FoundManufacturerData w) in
  P (i + Byte.to_nat len + 1) w1 (while_loop data (i + Byte.to_nat len + 1) w1) ->
  P i w (while_loop data (i + Byte.to_nat len + 1) w1).

Hypothesis P_decoded : forall i len fmt w,
  nth_error data i = Some len ->
  has_ruuvi_id data i len = true ->
  nth_error (mfg_data_at data i len) 2 = Some fmt ->
  Byte.to_nat fmt = RUUVI_DATA_FORMAT ->
  P i w (Ok Returned,
         decoded_world (mfg_data_at data i len)
                       (snd (print FoundManufacturerData w))).

Lemma walk_ind : forall i w, P i w (while_loop data i w).
Proof.
  intros i.
  remember (List.length data - i) as n eqn:Hn.
  revert i Hn.
  induction n as [n IH] using lt_wf_ind.
  intros i Hn w.
  destruct (le_lt_dec (List.length data) i) as [Hge|Hlt].
  - rewrite while_loop_exit by assumption. now apply P_exit.
  - destruct (getitem_inside data i w Hlt) as [len [Hlen _]].
    rewrite (while_loop_step data i len w Hlen), loop_body_spec.
    assert (Hnext : P (i + Byte.to_nat len + 1) w
                      (while_loop data (i + Byte.to_nat len + 1) w)
                    /\ P (i + Byte.to_nat len + 1)
                         (snd (print FoundManufacturerData w))
                         (while_loop data (i + Byte.to_nat len + 1)
                            (snd (print FoundManufacturerData w)))).
    { split; apply (IH (List.length data - (i + Byte.to_nat len + 1)));
        (lia || reflexivity). }
    destruct Hnext as [Hnext Hnext1].
    destruct (has_ruuvi_id data i len) eqn:Hid.
    + cbv zeta.
      destruct (nth_error (mfg_data_at data i len) 2) as [fmt|] eqn:Hfmt.
      * destruct (Byte.to_nat fmt =? RUUVI_DATA_FORMAT) eqn:E.
        -- apply Nat.eqb_eq in E. now apply (P_decoded i len fmt w).
        -- apply Nat.eqb_neq in E. now apply (P_other i len fmt w).
      * now apply (P_short i len w).
    + now apply (P_skip i len w).
Qed.

End WalkInd.

(** ** The four steps as equations *)

Lemma while_loop_skip data i len w :
  nth_error data i = Some len ->
  has_ruuvi_id data i len = false ->
  while_loop data i w = while_loop data (i + Byte.to_nat len + 1) w.
Proof.
  intros Hlen Hid.
  now rewrite (while_loop_step data i len w Hlen), loop_body_spec, Hid.
Qed.

Lemma while_loop_short data i len w :
  nth_error data i = Some len ->
  has_ruuvi_id data i len = true ->
  nth_error (mfg_data_at data i len) 2 = None ->
  while_loop data i w = (Raise IndexError, snd (print FoundManufacturerData w)).
Proof.
  intros Hlen Hid Hfmt.
  rewrite (while_loop_step data i len w Hlen), loop_body_spec, Hid.
  cbv zeta. now rewrite Hfmt.
Qed.

Lemma while_loop_other data i len fmt w :
  nth_error data i = Some len ->
  has_ruuvi_id data i len = true ->
  nth_error (mfg_data_at data i len) 2 = Some fmt ->
  Byte.to_nat fmt <> RUUVI_DATA_FORMAT ->
  while_loop data i w =
  while_loop data (i + Byte.to_nat len + 1)
             (snd (print FoundManufacturerData w)).
Proof.
  intros Hlen Hid Hfmt Hne.
  rewrite (while_loop_step data i len w Hlen), loop_body_spec, Hid.
  cbv zeta. rewrite Hfmt.
  apply Nat.eqb_neq in Hne. now rewrite Hne.
Qed.

Lemma while_loop_decoded data i len fmt w :
  nth_error data i = Some len ->
  has_ruuvi_id data i len = true ->
  nth_error (mfg_data_at data i len) 2 = Some fmt ->
  Byte.to_nat fmt = RUUVI_DATA_FORMAT ->
  while_loop data i w =
  (Ok Returned,
   decoded_world (mfg_data_at data i len)
                 (snd (print FoundManufacturerData w))).
Proof.
  intros Hlen Hid Hfmt Heq.
  rewrite (while_loop_step data i len w Hlen), loop_body_spec, Hid.
  cbv zeta. rewrite Hfmt.
  apply Nat.eqb_eq in Heq. now rewrite Heq.
Qed.

(** ** What the walk leaves alone *)

(** The walk never touches the LED or the sockets, only appends to the
    console, and writes the scanner on the returning path alone. *)
Lemma while_loop_frame data i w :
  led (snd (while_loop data i w)) = led w /\
  wire (snd (while_loop data i w)) = wire w /\
  (returned (fst (while_loop data i w)) = false ->
   scanner (snd (while_loop data i w)) = scanner w) /\
  exists new, stdout (snd (while_loop data i w)) = stdout w ++ new.
Proof.
  revert i w.
  apply (walk_ind data (fun i w rw =>
    led (snd rw) = led w /\ wire (snd rw) = wire w /\
    (returned (fst rw) = false -> scanner (snd rw) = scanner w) /\
    exists new, stdout (snd rw) = stdout w ++ new)).
  - intros i w _. cbn. repeat split; trivial.
    exists []. now rewrite app_nil_r.
  - intros i len w _ _ IH. exact IH.
  - intros i len w _ _ _. cbn. repeat split; trivial. now eexists.
  - intros i len fmt w _ _ _ _ w1 (Hled & Hwire & Hsc & new & Hout).
    subst w1. cbn in *. repeat split; trivial.
    exists (FoundManufacturerData :: new). rewrite Hout.
    now rewrite <- app_assoc.
  - intros i len fmt w _ _ _ _. cbn. repeat split; trivial.
    + discriminate.
    + exists [FoundManufacturerData; FoundDataFormat5;
              ParsedData (Some (reading_of (mfg_data_at data i len)))].
      now rewrite <- !app_assoc.
Qed.

(** Whether the walk returns, falls through or raises depends on the
    payload alone. *)
Lemma while_loop_result_indep data i w w2 :
  fst (while_loop data i w2) = fst (while_loop data i w).
Proof.
  revert w2. revert i w.
  apply (walk_ind data (fun i w rw =>
    forall w2, fst (while_loop data i w2) = fst rw)).
  - intros i w H w2. now rewrite while_loop_exit.
  - intros i len w Hlen Hid IH w2.
    rewrite (while_loop_skip data i len w2 Hlen Hid). apply IH.
  - intros i len w Hlen Hid Hfmt w2.
    now rewrite (while_loop_short data i len w2 Hlen Hid Hfmt).
  - intros i len fmt w Hlen Hid Hfmt Hne w1 IH w2.
    rewrite (while_loop_other data i len fmt w2 Hlen Hid Hfmt Hne). apply IH.
  - intros i len fmt w Hlen Hid Hfmt Heq w2.
    now rewrite (while_loop_decoded data i len fmt w2 Hlen Hid Hfmt Heq).
Qed.

(** A returning walk decoded one AD structure of the payload: vendor ID,
    format byte 5, and the scanner holds the reading of its value bytes. *)
Lemma while_loop_returned data i w :
  ad_offset data i ->
  fst (while_loop data i w) = Ok Returned ->
  exists j len fmt,
    ad_offset data j /\ i <= j /\
    nth_error data j = Some len /\
    has_ruuvi_id data j len = true /\
    nth_error (mfg_data_at data j len) 2 = Some fmt /\
    Byte.to_nat fmt = RUUVI_DATA_FORMAT /\
    scanner (snd (while_loop data i w)) =
    mkScanner (Some (reading_of (mfg_data_at data j len))) true.
Proof.
  revert i w.
  apply (walk_ind data (fun i w rw =>
    ad_offset data i ->
    fst rw = Ok Returned ->
    exists j len fmt,
      ad_offset data j /\ i <= j /\
      nth_error data j = Some len /\
      has_ruuvi_id data j len = true /\
      nth_error (mfg_data_at data j len) 2 = Some fmt /\
      Byte.to_nat fmt = RUUVI_DATA_FORMAT /\
      scanner (snd rw) =
      mkScanner (Some (reading_of (mfg_data_at data j len))) true)).
  - intros i w _ _. discriminate.
  - intros i len w Hlen _ IH Hoff Hret.
    destruct IH as (j & l & f & Hj & Hle & H); trivial.
    + now apply ad_next with i len.
    + exists j, l, f. repeat split; try apply H; trivial. lia.
  - intros i len w _ _ _ _. discriminate.
  - intros i len fmt w Hlen _ _ _ w1 IH Hoff Hret.
    destruct IH as (j & l & f & Hj & Hle & H); trivial.
    + now apply ad_next with i len.
    + exists j, l, f. repeat split; try apply H; trivial. lia.
  - intros i len fmt w Hlen Hid Hfmt Heq Hoff _.
    exists i, len, fmt. repeat split; trivial.
Qed.

(** Without a vendor structure ahead the walk falls off the end and
    changes nothing. *)
Lemma while_loop_no_vendor data i w :
  ad_offset data i ->
  (forall j len, ad_offset data j -> nth_error data j = Some len ->
                 has_ruuvi_id data j len = false) ->
  while_loop data i w = (Ok Fallthrough, w).
Proof.
  intros Hoff Hnone. revert i w Hoff.
  apply (walk_ind data (fun i w rw =>
    ad_offset data i -> rw = (Ok Fallthrough, w))).
  - reflexivity.
  - intros i len w Hlen _ IH Hoff. apply IH. now apply ad_next with i len.
  - intros i len w Hlen Hid _ Hoff. rewrite (Hnone i len) in Hid; easy.
  - intros i len fmt w Hlen Hid _ _ w1 _ Hoff.
    rewrite (Hnone i len) in Hid; easy.
  - intros i len fmt w Hlen Hid _ _ Hoff. rewrite (Hnone i len) in Hid; easy.
Qed.

(** Enter one fuelled iteration at an offset inside the payload. *)
Ltac run_iteration Hlen fuel :=
  let Hlt := fresh "Hlt" in
  let Htest := fresh "Htest" in
  match type of Hlen with
  | nth_error ?data ?i = Some _ =>
      assert (Hlt : i < List.length data)
        by (apply nth_error_Some; congruence);
      assert (Htest : (i <? List.length data) = true)
        by (now apply Nat.ltb_lt);
      destruct fuel as [|fuel]; [lia|];
      cbn [run]; rewrite Htest;
      unfold getitem; rewrite Hlen; unfold ret;
      rewrite loop_body_spec
  end.

(** [length data - i] iterations are enough from offset [i]. *)
Lemma run_enough data i w :
  forall fuel, List.length data - i <= fuel ->
               run fuel data i w = Some (while_loop data i w).
Proof.
  revert i w.
  apply (walk_ind data (fun i w rw =>
    forall fuel, List.length data - i <= fuel -> run fuel data i w = Some rw)).
  - intros i w Hge fuel _.
    destruct fuel; cbn [run];
      (assert ((i <? List.length data) = false) as ->
          by (apply Nat.ltb_ge; lia)); reflexivity.
  - intros i len w Hlen Hid IH fuel Hfuel.
    run_iteration Hlen fuel. rewrite Hid. apply IH. lia.
  - intros i len w Hlen Hid Hfmt fuel Hfuel.
    run_iteration Hlen fuel. rewrite Hid. cbv zeta. now rewrite Hfmt.
  - intros i len fmt w Hlen Hid Hfmt Hne w1 IH fuel Hfuel.
    run_iteration Hlen fuel. rewrite Hid. cbv zeta. rewrite Hfmt.
    apply Nat.eqb_neq in Hne. rewrite Hne. apply IH. lia.
  - intros i len fmt w Hlen Hid Hfmt Heq fuel Hfuel.
    run_iteration Hlen fuel. rewrite Hid. cbv zeta. rewrite Hfmt.
    apply Nat.eqb_eq in Heq. now rewrite Heq.
Qed.

(** ** The computed offsets list every AD structure *)

Lemma ad_offsets_from_next data len :
  forall fuel i0 i,
    List.length data - i0 <= fuel ->
    In i (ad_offsets_from fuel data i0) ->
    nth_error data i = Some len ->
    i + Byte.to_nat len + 1 < List.length data ->
    In (i + Byte.to_nat len + 1) (ad_offsets_from fuel data i0).
Proof.
  induction fuel as [|fuel IH]; intros i0 i Hfuel Hin Hlen Hnext;
    cbn [ad_offsets_from] in *; [contradiction|].
  destruct (nth_error data i0) as [len0|] eqn:H0; [|contradiction].
  destruct Hin as [<-|Hin].
  - right. rewrite Hlen in H0. injection H0 as <-.
    destruct fuel as [|fuel]; [lia|]. cbn [ad_offsets_from].
    destruct (nth_error data (i0 + Byte.to_nat len + 1)) eqn:E.
    + now left.
    + apply nth_error_None in E. lia.
  - right. apply IH; trivial.
    assert (i0 < List.length data) by (apply nth_error_Some; congruence).
    lia.
Qed.

Lemma ad_offset_listed data i len :
  ad_offset data i -> nth_error data i = Some len -> In i (ad_offsets data).
Proof.
  intros Hoff. revert len.
  induction Hoff as [|i l j Hoff IH Hl Hj]; intros len Hlen.
  - unfold ad_offsets. destruct data as [|b data]; [discriminate|].
    cbn. now left.
  - subst j. apply ad_offsets_from_next; trivial.
    + lia.
    + now apply IH with l.
    + apply nth_error_Some. congruence.
Qed.

(** ** The method as a whole *)

Lemma parse_ruuvi_data_unfold data w :
  parse_ruuvi_data data w =
  match while_loop data 0 (snd (print (ParsingData data) w)) with
  | (Ok Returned, w') => (Ok tt, w')
  | (Ok Fallthrough, w') => (Ok tt, snd (print NoRuuviDataFound w'))
  | (Raise e, w') => (Ok tt, snd (print (ErrorParsingData e) w'))
  end.
Proof.
  unfold parse_ruuvi_data, bind, try_except. cbn [print snd].
  destruct (while_loop data 0 _) as [[[|]|e] w']; reflexivity.
Qed.

(** The method changes the scanner exactly when the walk returns. *)
Lemma parse_ruuvi_data_scanner data w :
  scanner (snd (parse_ruuvi_data data w)) =
  scanner (snd (while_loop data 0 (snd (print (ParsingData data) w)))).
Proof.
  rewrite parse_ruuvi_data_unfold.
  destruct (while_loop data 0 _) as [[[|]|e] w']; reflexivity.
Qed.

Lemma parse_ruuvi_data_failure data w :
  returned (fst (while_loop data 0 w)) = false ->
  scanner (snd (parse_ruuvi_data data w)) = scanner w.
Proof.
  intros Hfail. rewrite parse_ruuvi_data_scanner.
  destruct (while_loop_frame data 0 (snd (print (ParsingData data) w)))
    as (_ & _ & Hsc & _).
  rewrite Hsc; [reflexivity|].
  now rewrite (while_loop_result_indep data 0 w).
Qed.

(** ** The temperature field *)

Lemma temperature_raw_range mfg_data :
  (0 <= from_bytes_big (slice mfg_data 3 5) < 65536)%Z.
Proof.
  pose proof (from_bytes_big_range (slice mfg_data 3 5)) as [H0 H1].
  pose proof (slice_length_le mfg_data 3 5) as Hlen.
  split; [assumption|].
  eapply Z.lt_le_trans; [exact H1|].
  change 65536%Z with (256 ^ Z.of_nat 2)%Z.
  apply Z.pow_le_mono_r; lia.
Qed.

(** C1: the two's-complement correction of main.py:65-66 tests the value
    already scaled by 0.005, which never exceeds 327.675, so the correction
    is never applied: every decoded temperature is the unsigned raw value
    times 0.005.  Raw 0x0139 gives 1.565; raw 0xFF9C gives 327.18 and not
    (0xFF9C - 65536) * 0.005 = -0.5. *)
Theorem temperature_correction_never_applies :
  (forall mfg_data,
      parse_temperature mfg_data =
      (inject_Z (from_bytes_big (slice mfg_data 3 5)) * (5 # 1000))%Q) /\
  (exists d,
      latest_data (scanner (snd (parse_ruuvi_data fixture boot))) = Some d /\
      (temperature d == 1565 # 1000)%Q) /\
  (exists d,
      latest_data (scanner (snd (parse_ruuvi_data fixture_negative boot)))
      = Some d /\
      (temperature d == 32718 # 100)%Q /\
      ~ (temperature d == inject_Z (0xFF9C - 65536) * (5 # 1000))%Q).
Proof.
  split; [|split].
  - intros mfg_data. unfold parse_temperature.
    pose proof (temperature_raw_range mfg_data) as Hr.
    set (raw := from_bytes_big (slice mfg_data 3 5)) in *.
    assert (Qle_bool (inject_Z raw * (5 # 1000)) 32767 = true) as ->;
      [|reflexivity].
    unfold Qle_bool, Qmult, inject_Z. cbn [Qnum Qden].
    apply Z.leb_le. lia.
  - eexists. split; [vm_compute; reflexivity|]. reflexivity.
  - eexists. split; [vm_compute; reflexivity|]. split.
    + reflexivity.
    + intros H. vm_compute in H. discriminate.
Qed.

(** ** Humidity and pressure *)

Lemma slice_5_9_split mfg_data h1 h0 p1 p0 :
  slice mfg_data 5 9 = [h1; h0; p1; p0] ->
  slice mfg_data 5 7 = [h1; h0] /\ slice mfg_data 7 9 = [p1; p0].
Proof.
  unfold slice. cbn [Nat.sub].
  destruct mfg_data as [|b0 [|b1 [|b2 [|b3 [|b4 l]]]]]; try discriminate.
  cbn [skipn].
  destruct l as [|a [|b [|c [|d l]]]]; try discriminate.
  cbn. intros [= -> -> -> ->]. split; reflexivity.
Qed.

(** C8: in every payload that decodes, the stored humidity is the
    big-endian integer of value bytes [5:7] times 0.0025 and the stored
    pressure is the big-endian integer of value bytes [7:9] plus 50000,
    divided by 100; with all four bytes present these integers are the
    16-bit values [256 * hi + lo].  Humidity raw 0x1770 gives 15.0 and
    pressure raw 0x4E20 gives 700.0. *)
Theorem humidity_pressure_scaling :
  (forall data w,
      fst (while_loop data 0 w) = Ok Returned ->
      exists i len d,
        ad_offset data i /\
        nth_error data i = Some len /\
        has_ruuvi_id data i len = true /\
        latest_data (scanner (snd (parse_ruuvi_data data w))) = Some d /\
        humidity d =
        (inject_Z (from_bytes_big (slice (mfg_data_at data i len) 5 7))
         * (25 # 10000))%Q /\
        pressure d =
        (inject_Z (from_bytes_big (slice (mfg_data_at data i len) 7 9) + 50000)
         / 100)%Q /\
        forall h1 h0 p1 p0,
          slice (mfg_data_at data i len) 5 9 = [h1; h0; p1; p0] ->
          humidity d =
          (inject_Z (256 * Z.of_nat (Byte.to_nat h1) + Z.of_nat (Byte.to_nat h0))
           * (25 # 10000))%Q /\
          pressure d =
          (inject_Z (256 * Z.of_nat (Byte.to_nat p1) + Z.of_nat (Byte.to_nat p0)
                     + 50000) / 100)%Q) /\
  (exists d,
      latest_data (scanner (snd (parse_ruuvi_data fixture boot))) = Some d /\
      slice (mfg_data_at fixture 3 x0a) 5 9 = [x17; x70; x4e; x20] /\
      (humidity d == 15)%Q /\ (pressure d == 700)%Q).
Proof.
  split.
  - intros data w Hret.
    set (w1 := snd (print (ParsingData data) w)).
    assert (Hret1 : fst (while_loop data 0 w1) = Ok Returned)
      by now rewrite (while_loop_result_indep data 0 w).
    destruct (while_loop_returned data 0 w1 (ad_first data) Hret1)
      as (i & len & fmt & Hoff & _ & Hlen & Hid & _ & _ & Hsc).
    exists i, len, (reading_of (mfg_data_at data i len)).
    repeat split; trivial.
    + rewrite parse_ruuvi_data_scanner. fold w1. now rewrite Hsc.
    + cbn [reading_of humidity]. unfold parse_humidity.
      apply slice_5_9_split in H as [-> _]. now rewrite from_bytes_big_2.
    + cbn [reading_of pressure]. unfold parse_pressure.
      apply slice_5_9_split in H as [_ ->]. now rewrite from_bytes_big_2.
  - eexists. split; [vm_compute; reflexivity|].
    split; [reflexivity|]. split; reflexivity.
Qed.

Lemma humidity_pressure_scaling_witness :
  exists i len d,
    ad_offset fixture i /\
    nth_error fixture i = Some len /\
    has_ruuvi_id fixture i len = true /\
    latest_data (scanner (snd (parse_ruuvi_data fixture boot))) = Some d /\
    humidity d =
    (inject_Z (from_bytes_big (slice (mfg_data_at fixture i len) 5 7))
     * (25 # 10000))%Q /\
    pressure d =
    (inject_Z (from_bytes_big (slice (mfg_data_at fixture i len) 7 9) + 50000)
     / 100)%Q /\
    forall h1 h0 p1 p0,
      slice (mfg_data_at fixture i len) 5 9 = [h1; h0; p1; p0] ->
      humidity d =
      (inject_Z (256 * Z.of_nat (Byte.to_nat h1) + Z.of_nat (Byte.to_nat h0))
       * (25 # 10000))%Q /\
      pressure d =
      (inject_Z (256 * Z.of_nat (Byte.to_nat p1) + Z.of_nat (Byte.to_nat p0)
                 + 50000) / 100)%Q.
Proof.
  apply (proj1 humidity_pressure_scaling fixture boot). reflexivity.
Defined.

(** ** Termination of the walk *)

(** C10: the walk ends for every payload.  From any offset [i] the loop
    completes within [length data - i] iterations, because an iteration
    that does not leave the loop moves the offset forward by the length
    byte plus one, which is at least one; a payload of zero bytes only is
    walked one byte at a time. *)
Theorem walk_terminates :
  (forall data i w,
      run (List.length data - i) data i w = Some (while_loop data i w)) /\
  (forall data i len w w',
      nth_error data i = Some len ->
      loop_body data i len w = (Ok Fallthrough, w') ->
      while_loop data i w = while_loop data (i + Byte.to_nat len + 1) w' /\
      i < i + Byte.to_nat len + 1 /\
      List.length data - (i + Byte.to_nat len + 1) < List.length data - i) /\
  (forall n w,
      run n (repeat x00 n) 0 w = Some (Ok Fallthrough, w)) /\
  run 2 [x00; x00; x00] 0 boot = None.
Proof.
  split; [|split; [|split]].
  - intros data i w. now apply run_enough.
  - intros data i len w w' Hlen Hbody.
    assert (i < List.length data) by (apply nth_error_Some; congruence).
    split; [|lia].
    now rewrite (while_loop_step data i len w Hlen), Hbody.
  - intros n w.
    pose proof (run_enough (repeat x00 n) 0 w n) as Hrun.
    rewrite repeat_length in Hrun. rewrite Hrun by lia. f_equal.
    apply while_loop_no_vendor; [constructor|].
    intros j len _ Hj. unfold has_ruuvi_id, is_manufacturer_data.
    destruct (nth_error (repeat x00 n) (j + 1)) as [t|] eqn:E; [|reflexivity].
    apply nth_error_In, repeat_spec in E. now subst t.
  - reflexivity.
Qed.

Lemma walk_terminates_witness :
  while_loop fixture 0 boot = while_loop fixture 3 boot /\
  0 < 0 + Byte.to_nat x02 + 1 /\
  List.length fixture - (0 + Byte.to_nat x02 + 1) < List.length fixture - 0.
Proof.
  apply (proj1 (proj2 walk_terminates) fixture 0 x02 boot boot);
    reflexivity.
Defined.

(** ** Failures stay inside the method *)

(** C3: for every byte sequence the method returns normally (whatever the
    walk raises is caught by its own [except]), and when no AD structure of
    the payload is manufacturer data with vendor ID 0x99 0x04 the walk falls
    off the end: the method reports that no Ruuvi data was found and changes
    nothing else. *)
Theorem parse_never_raises_and_reports_not_found data w :
  (exists w', parse_ruuvi_data data w = (Ok tt, w')) /\
  ((forall i len, ad_offset data i -> nth_error data i = Some len ->
                  has_ruuvi_id data i len = false) ->
   fst (while_loop data 0 w) = Ok Fallthrough /\
   parse_ruuvi_data data w =
   (Ok tt, mkWorld (scanner w)
                   ((stdout w ++ [ParsingData data]) ++ [NoRuuviDataFound])
                   (led w) (wire w))).
Proof.
  split.
  - rewrite parse_ruuvi_data_unfold.
    destruct (while_loop data 0 _) as [[[|]|e] w']; now eexists.
  - intros Hnone. split.
    + now rewrite while_loop_no_vendor by (trivial; constructor).
    + rewrite parse_ruuvi_data_unfold.
      now rewrite while_loop_no_vendor by (trivial; constructor).
Qed.

Lemma parse_never_raises_and_reports_not_found_witness :
  fst (while_loop overlong_foreign 0 boot) = Ok Fallthrough /\
  parse_ruuvi_data overlong_foreign boot =
  (Ok tt, mkWorld (scanner boot)
                  ((stdout boot ++ [ParsingData overlong_foreign])
                     ++ [NoRuuviDataFound])
                  (led boot) (wire boot)).
Proof.
  apply (proj2 (parse_never_raises_and_reports_not_found overlong_foreign boot)).
  intros i len Hoff Hlen.
  pose proof (ad_offset_listed overlong_foreign i len Hoff Hlen) as Hin.
  vm_compute in Hin. destruct Hin as [<-|[]].
  vm_compute in Hlen. injection Hlen as <-. reflexivity.
Defined.

(** C4: when a packet from the target address carries a payload that does
    not decode (the walk falls off the end or raises), the callback leaves
    the scanner as it was: the stored reading, or its absence, and the
    new-data flag. *)
Theorem failed_decode_keeps_state mac p w :
  String.eqb (lower (format_addr (addr p))) (lower mac) = true ->
  returned (fst (while_loop (adv_data p) 0 w)) = false ->
  scanner (snd (ble_irq mac _IRQ_SCAN_RESULT p w)) = scanner w.
Proof.
  intros Hmatch Hfail. unfold ble_irq.
  cbn [Z.eqb _IRQ_SCAN_RESULT Pos.eqb]. rewrite Hmatch.
  unfold bind at 1. cbn [print].
  rewrite parse_ruuvi_data_failure; [reflexivity|].
  now rewrite (while_loop_result_indep (adv_data p) 0 w).
Qed.

Lemma failed_decode_keeps_state_witness :
  scanner
    (snd (ble_irq "AA:BB:CC:DD:EE:FF" _IRQ_SCAN_RESULT
            (mkScanResult 0 tag_addr 0 (-70) vendor_id_only)
            (mkWorld (mkScanner (Some (reading_of [])) true) [] false [])))
  = mkScanner (Some (reading_of [])) true.
Proof.
  apply (failed_decode_keeps_state "AA:BB:CC:DD:EE:FF"
           (mkScanResult 0 tag_addr 0 (-70) vendor_id_only)
           (mkWorld (mkScanner (Some (reading_of [])) true) [] false []));
    reflexivity.
Defined.

(** ** A structure longer than the payload *)

(** C2 fails as stated: the structure at offset 0 of [overlong_ruuvi]
    extends past the end of the payload, and the walk returns with a
    reading decoded from it. *)
Lemma overrunning_structure_is_decoded :
  ad_offset overlong_ruuvi 0 /\
  nth_error overlong_ruuvi 0 = Some x1f /\
  List.length overlong_ruuvi < 0 + Byte.to_nat x1f + 1 /\
  fst (while_loop overlong_ruuvi 0 boot) = Ok Returned /\
  scanner (snd (parse_ruuvi_data overlong_ruuvi boot)) =
  mkScanner (Some (reading_of [x99; x04; x05; x01; x39])) true.
Proof.
  split; [constructor|]. split; [reflexivity|].
  split; [vm_compute; lia|]. split; reflexivity.
Qed.

(** C2, amended: an AD structure whose declared length runs past the end
    of the payload is the last one the walk looks at, and its value is the
    slice clamped to the payload: nothing beyond the end is read.  The
    clamped bytes are treated like any other structure: without the vendor
    ID the walk ends having found nothing; with the vendor ID and no byte
    after it [mfg_data[2]] raises [IndexError] (caught by the method); with
    a format byte other than 5 the walk ends having found nothing; with
    format byte 5 a reading is decoded from the bytes that are there. *)
Theorem overrunning_structure_ends_walk data i len w :
  nth_error data i = Some len ->
  List.length data < i + Byte.to_nat len + 1 ->
  mfg_data_at data i len = skipn (i + 2) data /\
  while_loop data i w =
  if has_ruuvi_id data i len then
    let w1 := snd (print FoundManufacturerData w) in
    match nth_error (skipn (i + 2) data) 2 with
    | None => (Raise IndexError, w1)
    | Some fmt =>
        if Byte.to_nat fmt =? RUUVI_DATA_FORMAT
        then (Ok Returned, decoded_world (skipn (i + 2) data) w1)
        else (Ok Fallthrough, w1)
    end
  else (Ok Fallthrough, w).
Proof.
  intros Hlen Hover.
  assert (Hclamp : mfg_data_at data i len = skipn (i + 2) data)
    by (apply slice_clamped; lia).
  split; [assumption|].
  rewrite (while_loop_step data i len w Hlen), loop_body_spec.
  rewrite Hclamp.
  destruct (has_ruuvi_id data i len).
  - cbv zeta.
    destruct (nth_error (skipn (i + 2) data) 2) as [fmt|]; [|reflexivity].
    destruct (Byte.to_nat fmt =? RUUVI_DATA_FORMAT); [reflexivity|].
    apply while_loop_exit. lia.
  - apply while_loop_exit. lia.
Qed.

Lemma overrunning_structure_ends_walk_witness :
  mfg_data_at overlong_ruuvi 0 x1f = skipn (0 + 2) overlong_ruuvi /\
  while_loop overlong_ruuvi 0 boot =
  if has_ruuvi_id overlong_ruuvi 0 x1f then
    let w1 := snd (print FoundManufacturerData boot) in
    match nth_error (skipn (0 + 2) overlong_ruuvi) 2 with
    | None => (Raise IndexError, w1)
    | Some fmt =>
        if Byte.to_nat fmt =? RUUVI_DATA_FORMAT
        then (Ok Returned, decoded_world (skipn (0 + 2) overlong_ruuvi) w1)
        else (Ok Fallthrough, w1)
    end
  else (Ok Fallthrough, boot).
Proof.
  apply (overrunning_structure_ends_walk overlong_ruuvi 0 x1f boot).
  - reflexivity.
  - vm_compute. lia.
Defined.

(** ** A vendor structure in another format *)

(** C5 fails as stated: [format3_then_format5] contains a vendor structure
    whose format byte is 3, and decoding the payload does not fail: the walk
    goes on and returns with the reading of the next structure. *)
Lemma other_format_payload_decodes :
  ad_offset format3_then_format5 0 /\
  nth_error format3_then_format5 0 = Some x04 /\
  has_ruuvi_id format3_then_format5 0 x04 = true /\
  nth_error (mfg_data_at format3_then_format5 0 x04) 2 = Some x03 /\
  fst (while_loop format3_then_format5 0 boot) = Ok Returned /\
  scanner (snd (parse_ruuvi_data format3_then_format5 boot)) =
  mkScanner (Some (reading_of (mfg_data_at format3_then_format5 5 x0a))) true.
Proof.
  split; [constructor|]. repeat split; reflexivity.
Qed.

(** ** The address filter *)

Lemma lower_append a b : lower (a ++ b) = (lower a ++ lower b)%string.
Proof. induction a as [|c a IH]; cbn; [reflexivity | now rewrite IH]. Qed.

Lemma lower_format_02x b : lower (format_02x b) = format_02x b.
Proof. destruct b; reflexivity. Qed.

(** The formatted address is already in lower case. *)
Lemma lower_format_addr a : lower (format_addr a) = format_addr a.
Proof.
  unfold format_addr.
  induction a as [|b a IH]; [reflexivity|].
  cbn [map String.concat]. destruct (map format_02x a) as [|s l] eqn:E.
  - apply lower_format_02x.
  - rewrite !lower_append, lower_format_02x, IH. reflexivity.
Qed.

(** The method's first print is the payload it was called with. *)
Lemma parse_ruuvi_data_stdout data w :
  exists rest,
    stdout (snd (parse_ruuvi_data data w)) = stdout w ++ ParsingData data :: rest.
Proof.
  rewrite parse_ruuvi_data_unfold.
  destruct (while_loop_frame data 0 (snd (print (ParsingData data) w)))
    as (_ & _ & _ & new & Hout).
  destruct (while_loop data 0 _) as [[[|]|e] w']; cbn in *; rewrite Hout.
  - exists (new ++ [NoRuuviDataFound]). now rewrite <- !app_assoc.
  - exists new. now rewrite <- app_assoc.
  - exists (new ++ [ErrorParsingData e]). now rewrite <- !app_assoc.
Qed.

(** C9: a scan result reaches the decoder exactly when its address,
    written as colon-separated two-digit hex, equals the configured
    [RUUVI_MAC] after both are lower-cased (the written address is in lower
    case already).  On a match the callback announces the tag and runs the
    decoder on the payload; otherwise it returns at once and the world,
    console included, is untouched. *)
Theorem irq_filters_by_address mac p w :
  (lower (format_addr (addr p)) = lower mac ->
   ble_irq mac _IRQ_SCAN_RESULT p w =
   parse_ruuvi_data (adv_data p)
                    (snd (print (FoundRuuviTag (adv_data p)) w))) /\
  (lower (format_addr (addr p)) <> lower mac ->
   ble_irq mac _IRQ_SCAN_RESULT p w = (Ok tt, w)) /\
  ((exists rest,
       stdout (snd (ble_irq mac _IRQ_SCAN_RESULT p w)) =
       stdout w ++ FoundRuuviTag (adv_data p) :: ParsingData (adv_data p) :: rest)
   <-> lower (format_addr (addr p)) = lower mac) /\
  lower (format_addr (addr p)) = format_addr (addr p).
Proof.
  assert (Hyes : lower (format_addr (addr p)) = lower mac ->
                 ble_irq mac _IRQ_SCAN_RESULT p w =
                 parse_ruuvi_data (adv_data p)
                   (snd (print (FoundRuuviTag (adv_data p)) w))).
  { intros Heq. unfold ble_irq. cbn [Z.eqb _IRQ_SCAN_RESULT Pos.eqb].
    apply String.eqb_eq in Heq. rewrite Heq. reflexivity. }
  assert (Hno : lower (format_addr (addr p)) <> lower mac ->
                ble_irq mac _IRQ_SCAN_RESULT p w = (Ok tt, w)).
  { intros Hne. unfold ble_irq. cbn [Z.eqb _IRQ_SCAN_RESULT Pos.eqb].
    apply String.eqb_neq in Hne. rewrite Hne. reflexivity. }
  repeat split; trivial.
  - intros [rest Hout].
    destruct (String.eqb_spec (lower (format_addr (addr p))) (lower mac))
      as [Heq|Hne]; [assumption|exfalso].
    rewrite (Hno Hne) in Hout. cbn [snd] in Hout.
    apply (f_equal (@List.length line)) in Hout.
    rewrite length_app in Hout. cbn [List.length] in Hout. lia.
  - intros Heq. rewrite (Hyes Heq).
    destruct (parse_ruuvi_data_stdout (adv_data p)
                (snd (print (FoundRuuviTag (adv_data p)) w))) as [rest Hout].
    exists rest. rewrite Hout. cbn [print snd stdout].
    now rewrite <- app_assoc.
  - apply lower_format_addr.
Qed.

Lemma irq_filters_by_address_witness :
  ble_irq "AA:BB:CC:DD:EE:FF" _IRQ_SCAN_RESULT
          (mkScanResult 0 tag_addr 0 (-70) fixture) boot =
  parse_ruuvi_data fixture (snd (print (FoundRuuviTag fixture) boot)).
Proof.
  apply (proj1 (irq_filters_by_address "AA:BB:CC:DD:EE:FF"
                  (mkScanResult 0 tag_addr 0 (-70) fixture) boot)).
  reflexivity.
Defined.

(** The two spellings of the spec's example address both select the tag
    whose address bytes are aa bb cc dd ee ff, and a tag with another
    address is ignored. *)
Example address_case_examples :
  scanner (snd (ble_irq "AA:BB:CC:DD:EE:FF" _IRQ_SCAN_RESULT
                  (mkScanResult 0 tag_addr 0 (-70) fixture) boot)) =
  mkScanner (Some (reading_of (mfg_data_at fixture 3 x0a))) true /\
  scanner (snd (ble_irq "aa:bb:cc:dd:ee:ff" _IRQ_SCAN_RESULT
                  (mkScanResult 0 tag_addr 0 (-70) fixture) boot)) =
  mkScanner (Some (reading_of (mfg_data_at fixture 3 x0a))) true /\
  ble_irq "aa:bb:cc:dd:ee:00" _IRQ_SCAN_RESULT
          (mkScanResult 0 tag_addr 0 (-70) fixture) boot = (Ok tt, boot).
Proof. repeat split; reflexivity. Qed.

(** ** The callback as seen from the server *)

(** What the walk does to the scanner depends on the scanner alone. *)
Lemma while_loop_scanner_indep data i w w2 :
  scanner w2 = scanner w ->
  scanner (snd (while_loop data i w2)) = scanner (snd (while_loop data i w)).
Proof.
  revert w2. revert i w.
  apply (walk_ind data (fun i w rw =>
    forall w2, scanner w2 = scanner w ->
               scanner (snd (while_loop data i w2)) = scanner (snd rw))).
  - intros i w H w2 Hsc. now rewrite while_loop_exit.
  - intros i len w Hlen Hid IH w2 Hsc.
    rewrite (while_loop_skip data i len w2 Hlen Hid). now apply IH.
  - intros i len w Hlen Hid Hfmt w2 Hsc.
    now rewrite (while_loop_short data i len w2 Hlen Hid Hfmt).
  - intros i len fmt w Hlen Hid Hfmt Hne w1 IH w2 Hsc.
    rewrite (while_loop_other data i len fmt w2 Hlen Hid Hfmt Hne).
    now apply IH.
  - intros i len fmt w Hlen Hid Hfmt Heq w2 Hsc.
    now rewrite (while_loop_decoded data i len fmt w2 Hlen Hid Hfmt Heq).
Qed.

Lemma parse_ruuvi_data_frame data w :
  led (snd (parse_ruuvi_data data w)) = led w /\
  wire (snd (parse_ruuvi_data data w)) = wire w.
Proof.
  rewrite parse_ruuvi_data_unfold.
  destruct (while_loop_frame data 0 (snd (print (ParsingData data) w)))
    as (Hled & Hwire & _ & _).
  destruct (while_loop data 0 _) as [[[|]|e] w']; cbn in *; now split.
Qed.

Section Radio.

Variable RUUVI_MAC : string.

Lemma ble_irq_frame event data w :
  led (snd (ble_irq RUUVI_MAC event data w)) = led w /\
  wire (snd (ble_irq RUUVI_MAC event data w)) = wire w.
Proof.
  unfold ble_irq.
  destruct (event =? _IRQ_SCAN_RESULT)%Z.
  - destruct (String.eqb _ _); [|now split].
    unfold bind. cbn [print].
    apply (parse_ruuvi_data_frame (adv_data data)
             (mkWorld (scanner w) (stdout w ++ [FoundRuuviTag (adv_data data)])
                      (led w) (wire w))).
  - destruct (event =? _IRQ_SCAN_DONE)%Z; now split.
Qed.

Lemma ble_irq_scanner_indep event data w w2 :
  scanner w2 = scanner w ->
  scanner (snd (ble_irq RUUVI_MAC event data w2)) =
  scanner (snd (ble_irq RUUVI_MAC event data w)).
Proof.
  intros Hsc. unfold ble_irq.
  destruct (event =? _IRQ_SCAN_RESULT)%Z.
  - destruct (String.eqb _ _); [|assumption].
    unfold bind. cbn [print].
    rewrite !parse_ruuvi_data_scanner.
    now apply while_loop_scanner_indep.
  - destruct (event =? _IRQ_SCAN_DONE)%Z; assumption.
Qed.

Lemma deliver_ok evs : forall w, fst (deliver RUUVI_MAC evs w) = Ok tt.
Proof.
  induction evs as [|[event data] evs IH]; intros w; cbn [deliver];
    [reflexivity | apply IH].
Qed.

Lemma deliver_frame evs : forall w,
  led (snd (deliver RUUVI_MAC evs w)) = led w /\
  wire (snd (deliver RUUVI_MAC evs w)) = wire w.
Proof.
  induction evs as [|[event data] evs IH]; intros w; cbn [deliver].
  - now split.
  - destruct (IH (snd (ble_irq RUUVI_MAC event data w))) as [-> ->].
    apply ble_irq_frame.
Qed.

Lemma deliver_scanner_indep evs : forall w w2,
  scanner w2 = scanner w ->
  scanner (snd (deliver RUUVI_MAC evs w2)) =
  scanner (snd (deliver RUUVI_MAC evs w)).
Proof.
  induction evs as [|[event data] evs IH]; intros w w2 Hsc; cbn [deliver].
  - assumption.
  - apply IH. now apply ble_irq_scanner_indep.
Qed.

End Radio.

(** ** Text of a JSON object *)





(** ** Serving a request *)

Section Serving.

Variable RUUVI_MAC : string.
Variable float_repr : Q -> string.
Variable ticks_diff : Z -> Z -> Z.
Variable dict_items : list (string * json) -> list (string * json).

Lemma handle_client_cases c w :
  let sc := scanner (snd (deliver RUUVI_MAC (irqs c) w)) in
  let rs := response_str (json_dumps float_repr dict_items (response (latest_data sc))) in
  let res := handle_client RUUVI_MAC float_repr dict_items c w in
  led (snd res) = led w /\
  match recv c, gap_scan c, send c with
  | Ok _, Ok _, Ok _ =>
      fst res = Ok tt /\
      scanner (snd res) = mkScanner (latest_data sc) false /\
      wire (snd res) = wire w ++ [rs]
  | Ok _, Ok _, Raise e =>
      fst res = Raise e /\ scanner (snd res) = sc /\ wire (snd res) = wire w
  | Ok _, Raise e, _ | Raise e, _, _ =>
      fst res = Raise e /\ scanner (snd res) = scanner w /\
      wire (snd res) = wire w
  end.
Proof.
  cbv zeta.
  remember (handle_client RUUVI_MAC float_repr dict_items c w) as res eqn:E.
  unfold handle_client, start_scan, cl_send, lift in E.
  unfold bind at 1 in E. cbn [print] in E.
  unfold bind at 1 in E.
  destruct (recv c) as [request|e]; [|subst res; cbn; auto].
  unfold bind at 1 in E. cbn [print scanner stdout led wire] in E.
  unfold bind at 1 in E. cbn [print scanner stdout led wire] in E.
  unfold bind at 1 in E. unfold bind at 1 in E.
  cbn [print scanner stdout led wire] in E.
  destruct (gap_scan c) as [[]|e]; [|subst res; cbn; auto].
  unfold bind at 1 in E.
  match type of E with
  | context [deliver RUUVI_MAC (irqs c) ?W] => set (w0 := W) in E
  end.
  pose proof (deliver_ok RUUVI_MAC (irqs c) w0) as Hok.
  pose proof (deliver_frame RUUVI_MAC (irqs c) w0) as [Hled Hwire].
  pose proof (deliver_scanner_indep RUUVI_MAC (irqs c) w w0 eq_refl) as Hsc.
  rewrite <- Hsc.
  destruct (deliver RUUVI_MAC (irqs c) w0) as [r w3].
  cbn [fst snd scanner stdout led wire] in *. subst r.
  unfold bind at 1 in E. cbn [get_latest_data] in E.
  unfold bind at 1 in E.
  assert (Hprint : exists out,
             (match latest_data (scanner w3) with
              | Some d => print (SendingData d)
              | None => print NoDataAvailable
              end) w3 = (Ok tt, mkWorld (scanner w3) out (led w3) (wire w3))).
  { destruct (latest_data (scanner w3)); now eexists. }
  destruct Hprint as [out Hprint]. rewrite Hprint in E.
  unfold bind at 1 in E. cbn [get_latest_data scanner stdout led wire] in E.
  unfold bind at 1 in E. cbn [print scanner stdout led wire] in E.
  unfold bind at 1 in E. unfold bind at 1 in E.
  destruct (send c) as [[]|e]; subst res;
    cbn [set_data_received with_scanner fst snd scanner stdout led wire
         latest_data];
    rewrite ?Hled, ?Hwire; auto.
Qed.


Lemma connection_error_scanner e w :
  scanner (snd (connection_error e w)) = scanner w.
Proof.
  destruct e as [|errno|]; cbn; try reflexivity.
  destruct (errno =? 11)%Z; reflexivity.
Qed.

(** C7: one iteration of the server loop writes the scanner only by
    clearing the new-data flag.  When the request is served the flag is
    false afterwards and the stored reading is the one the radio callbacks
    of the settle second left there; with no radio event in that second the
    stored reading is the one from before the request.  Otherwise the
    scanner is as it was, or as the callbacks left it. *)
Theorem serving_clears_fresh_only now a t w :
  let w' := snd (iteration RUUVI_MAC float_repr ticks_diff dict_items now a t w) in
  match a with
  | AcceptRaises _ => scanner w' = scanner w
  | Accepted c =>
      let sc := scanner (snd (deliver RUUVI_MAC (irqs c) w)) in
      (served c = true -> scanner w' = mkScanner (latest_data sc) false) /\
      (irqs c = [] -> latest_data (scanner w') = latest_data (scanner w)) /\
      (scanner w' = scanner w \/ scanner w' = sc \/
       scanner w' = mkScanner (latest_data sc) false)
  end.
Proof.
  cbv zeta. unfold iteration.
  set (w1 := if (ticks_diff now (last_blink t) >=? _)%Z
             then (now, snd (blink_led w)) else (last_blink t, w)).
  assert (Hw1 : scanner (snd w1) = scanner w)
    by (subst w1; destruct (_ >=? _)%Z; reflexivity).
  destruct w1 as [last w1]. cbn [snd] in *.
  unfold try_except.
  destruct a as [errno|c].
  - unfold raise. now rewrite connection_error_scanner.
  - pose proof (handle_client_cases c w1) as [_ H]. cbv zeta in H.
    rewrite (deliver_scanner_indep RUUVI_MAC (irqs c) w w1 Hw1) in H.
    assert (Hquiet : irqs c = [] ->
                     scanner (snd (deliver RUUVI_MAC (irqs c) w)) = scanner w)
      by (intros ->; reflexivity).
    unfold served.
    destruct (handle_client RUUVI_MAC float_repr dict_items c w1) as [r w2].
    cbn [fst snd] in H.
    destruct (recv c) as [request|e1];
      [destruct (gap_scan c) as [[]|e2];
       [destruct (send c) as [[]|e3]|]|];
      destruct H as (-> & Hsc & _);
      rewrite ?connection_error_scanner; cbn [snd]; rewrite Hsc, ?Hw1;
      repeat split; auto; try discriminate;
      intros Hq; cbn [latest_data]; now rewrite (Hquiet Hq).
Qed.

End Serving.

(** The items of the response dict in MicroPython's order. *)
Lemma mp_dict_items_response latest :
  mp_dict_items (response latest) =
  [ ("humidity"%string,
     match latest with Some d => JFloat (humidity d) | None => JNull end);
    ("pressure"%string,
     match latest with Some d => JFloat (pressure d) | None => JNull end);
    ("temperature"%string,
     match latest with Some d => JFloat (temperature d) | None => JNull end) ].
Proof. destruct latest; reflexivity. Qed.

Lemma mp_dict_items_response_permutation latest :
  Permutation (mp_dict_items (response latest)) (response latest).
Proof.
  rewrite mp_dict_items_response. unfold response.
  eapply perm_trans; [apply perm_skip, perm_swap | apply perm_swap].
Qed.



(** The response to the first request after boot, byte for byte, with a
    dict that iterates in insertion order and with MicroPython's. *)
Example first_response :
  wire (snd (handle_client "aa:bb:cc:dd:ee:ff" (fun _ => "0.0"%string)
                           (fun d => d) plain_client boot)) =
  [("HTTP/1.0 200 OK" ++ crlf ++
    "Content-Type: application/json" ++ crlf ++
    "Content-Length: 57" ++ crlf ++
    "Access-Control-Allow-Origin: *" ++ crlf ++ crlf ++
    null_body)%string] /\
  wire (snd (handle_client "aa:bb:cc:dd:ee:ff" (fun _ => "0.0"%string)
                           mp_dict_items plain_client boot)) =
  [("HTTP/1.0 200 OK" ++ crlf ++
    "Content-Type: application/json" ++ crlf ++
    "Content-Length: 57" ++ crlf ++
    "Access-Control-Allow-Origin: *" ++ crlf ++ crlf ++
    mp_null_body)%string].
Proof. split; reflexivity. Qed.

Lemma serving_clears_fresh_only_witness :
  scanner (snd (iteration "aa:bb:cc:dd:ee:ff" (fun _ => "0.0"%string) Z.sub mp_dict_items
                          2000 (Accepted plain_client) (mkTimers 0 1000)
                          fresh_world))
  = mkScanner (Some (reading_of (mfg_data_at fixture 3 x0a))) false.
Proof.
  apply (proj1 (serving_clears_fresh_only
                  "aa:bb:cc:dd:ee:ff" (fun _ => "0.0"%string) Z.sub mp_dict_items
                  2000 (Accepted plain_client) (mkTimers 0 1000)
                  fresh_world)).
  reflexivity.
Defined.

(** * Further properties of the decoder *)

(** Structures that are stepped over leave the scanner, the LED and the
    sockets alone; the walk goes on from the offset they lead to. *)
Lemma passes_walk data i j :
  passes data i j ->
  forall w, exists w',
    while_loop data i w = while_loop data j w' /\
    scanner w' = scanner w /\ led w' = led w /\ wire w' = wire w.
Proof.
  induction 1 as [i|i len j Hlen Hover _ IH]; intros w.
  - exists w. now repeat split.
  - destruct (has_ruuvi_id data i len) eqn:Hid.
    + destruct Hover as [Hno|(fmt & Hfmt & Hne)]; [congruence|].
      destruct (IH (snd (print FoundManufacturerData w)))
        as (w' & Hw & Hsc & Hled & Hwire).
      exists w'. rewrite (while_loop_other data i len fmt w Hlen Hid Hfmt Hne).
      now repeat split.
    + destruct (IH w) as (w' & Hw & Hsc & Hled & Hwire).
      exists w'. rewrite (while_loop_skip data i len w Hlen Hid).
      now repeat split.
Qed.

Lemma walk_verdict_sound data i w :
  match fst (while_loop data i w) with
  | Ok Returned =>
      exists j len fmt,
        passes data i j /\ nth_error data j = Some len /\
        has_ruuvi_id data j len = true /\
        nth_error (mfg_data_at data j len) 2 = Some fmt /\
        Byte.to_nat fmt = RUUVI_DATA_FORMAT
  | Ok Fallthrough =>
      exists j, passes data i j /\ List.length data <= j
  | Raise e =>
      e = IndexError /\
      exists j len,
        passes data i j /\ nth_error data j = Some len /\
        has_ruuvi_id data j len = true /\
        nth_error (mfg_data_at data j len) 2 = None
  end.
Proof.
  revert i w.
  apply (walk_ind data (fun i w rw =>
    match fst rw with
    | Ok Returned =>
        exists j len fmt,
          passes data i j /\ nth_error data j = Some len /\
          has_ruuvi_id data j len = true /\
          nth_error (mfg_data_at data j len) 2 = Some fmt /\
          Byte.to_nat fmt = RUUVI_DATA_FORMAT
    | Ok Fallthrough =>
        exists j, passes data i j /\ List.length data <= j
    | Raise e =>
        e = IndexError /\
        exists j len,
          passes data i j /\ nth_error data j = Some len /\
          has_ruuvi_id data j len = true /\
          nth_error (mfg_data_at data j len) 2 = None
    end)).
  - intros i w Hge. cbn. exists i. split; [constructor|assumption].
  - intros i len w Hlen Hid IH.
    assert (Hstep : forall j, passes data (i + Byte.to_nat len + 1) j ->
                              passes data i j)
      by (intros j; apply passes_step; [assumption | now left]).
    destruct (fst (while_loop data (i + Byte.to_nat len + 1) w)) as [[|]|e].
    + destruct IH as (j & Hp & Hj). exists j. auto.
    + destruct IH as (j & l & f & Hp & Hj). exists j, l, f. auto.
    + destruct IH as (He & j & l & Hp & Hj). split; [assumption|].
      exists j, l. auto.
  - intros i len w Hlen Hid Hfmt. cbn. split; [reflexivity|].
    exists i, len. repeat split; trivial. constructor.
  - intros i len fmt w Hlen Hid Hfmt Hne w1 IH.
    assert (Hstep : forall j, passes data (i + Byte.to_nat len + 1) j ->
                              passes data i j)
      by (intros j; apply passes_step; [assumption | right; now exists fmt]).
    destruct (fst (while_loop data (i + Byte.to_nat len + 1) w1)) as [[|]|e].
    + destruct IH as (j & Hp & Hj). exists j. auto.
    + destruct IH as (j & l & f & Hp & Hj). exists j, l, f. auto.
    + destruct IH as (He & j & l & Hp & Hj). split; [assumption|].
      exists j, l. auto.
  - intros i len fmt w Hlen Hid Hfmt Heq. cbn.
    exists i, len, fmt. repeat split; trivial. constructor.
Qed.

(** A vendor structure whose value has no byte at index 2 holds the two
    bytes of the vendor ID and nothing else. *)
Lemma vendor_id_without_format data i len :
  has_ruuvi_id data i len = true ->
  nth_error (mfg_data_at data i len) 2 = None ->
  mfg_data_at data i len = ruuvi_manufacturer_id.
Proof.
  unfold has_ruuvi_id. intros Hid Hnone.
  apply andb_true_iff in Hid as [_ Hid].
  apply (proj1 (bytes_eqb_eq _ _)) in Hid.
  apply nth_error_None in Hnone.
  destruct (mfg_data_at data i len) as [|a [|b [|c l]]];
    try discriminate; [exact Hid | cbn in Hnone; lia].
Qed.

(** The walk from offset 0 that passes to a vendor structure with format
    byte 5 returns there, and the method stores that structure's reading. *)
Lemma walk_decodes_at data w j len fmt :
  passes data 0 j -> nth_error data j = Some len ->
  has_ruuvi_id data j len = true ->
  nth_error (mfg_data_at data j len) 2 = Some fmt ->
  Byte.to_nat fmt = RUUVI_DATA_FORMAT ->
  fst (while_loop data 0 w) = Ok Returned /\
  scanner (snd (parse_ruuvi_data data w)) =
  mkScanner (Some (reading_of (mfg_data_at data j len))) true.
Proof.
  intros Hp Hlen Hid Hfmt Heq. split.
  - destruct (passes_walk data 0 j Hp w) as (w' & -> & _).
    now rewrite (while_loop_decoded data j len fmt w' Hlen Hid Hfmt Heq).
  - rewrite parse_ruuvi_data_scanner.
    destruct (passes_walk data 0 j Hp (snd (print (ParsingData data) w)))
      as (w' & -> & _).
    now rewrite (while_loop_decoded data j len fmt w' Hlen Hid Hfmt Heq).
Qed.

(** When the walk returns, what the method stores depends on the payload
    alone. *)
Lemma parse_ruuvi_data_decoded_indep data w w2 :
  fst (while_loop data 0 w) = Ok Returned ->
  scanner (snd (parse_ruuvi_data data w2)) =
  scanner (snd (parse_ruuvi_data data w)).
Proof.
  intros Hret. pose proof (walk_verdict_sound data 0 w) as H.
  rewrite Hret in H. destruct H as (j & len & fmt & Hp & Hlen & Hid & Hfmt & Heq).
  destruct (walk_decodes_at data w j len fmt Hp Hlen Hid Hfmt Heq) as [_ ->].
  now destruct (walk_decodes_at data w2 j len fmt Hp Hlen Hid Hfmt Heq)
    as [_ ->].
Qed.

(** X1: the walk returns exactly when the first structure that is not
    stepped over (one that is not the vendor's, or the vendor's in another
    format) is a vendor structure with format byte 5; the method then stores
    the reading of that structure's value bytes and raises the new-data
    flag, whatever was stored before. *)
Theorem first_format5_structure_is_decoded data w :
  (fst (while_loop data 0 w) = Ok Returned ->
   exists j len fmt,
     passes data 0 j /\ nth_error data j = Some len /\
     has_ruuvi_id data j len = true /\
     nth_error (mfg_data_at data j len) 2 = Some fmt /\
     Byte.to_nat fmt = RUUVI_DATA_FORMAT) /\
  (forall j len fmt,
     passes data 0 j -> nth_error data j = Some len ->
     has_ruuvi_id data j len = true ->
     nth_error (mfg_data_at data j len) 2 = Some fmt ->
     Byte.to_nat fmt = RUUVI_DATA_FORMAT ->
     fst (while_loop data 0 w) = Ok Returned /\
     scanner (snd (parse_ruuvi_data data w)) =
     mkScanner (Some (reading_of (mfg_data_at data j len))) true).
Proof.
  split.
  - intros Hret. pose proof (walk_verdict_sound data 0 w) as H.
    now rewrite Hret in H.
  - intros j len fmt. apply walk_decodes_at.
Qed.

Lemma first_format5_structure_is_decoded_witness :
  fst (while_loop format3_then_format5 0 fresh_world) = Ok Returned /\
  scanner (snd (parse_ruuvi_data format3_then_format5 fresh_world)) =
  mkScanner (Some (reading_of (mfg_data_at format3_then_format5 5 x0a))) true.
Proof.
  apply (proj2 (first_format5_structure_is_decoded
                  format3_then_format5 fresh_world) 5 x0a x05);
    try reflexivity.
  apply passes_step with x04; [reflexivity | | apply passes_here].
  right. exists x03. split; [reflexivity | vm_compute; lia].
Defined.

(** X2: the only exception the walk raises is [IndexError], and it raises
    it exactly when the first structure that is not stepped over is a
    vendor structure whose value is the vendor ID alone, so that
    [mfg_data[2]] does not exist.  The method catches it: the scanner is
    unchanged, and structures after that one are not looked at. *)
Theorem walk_raises_on_bare_vendor_id data w :
  (forall e, fst (while_loop data 0 w) = Raise e ->
   e = IndexError /\
   exists j len,
     passes data 0 j /\ nth_error data j = Some len /\
     has_ruuvi_id data j len = true /\
     mfg_data_at data j len = ruuvi_manufacturer_id) /\
  (forall j len,
     passes data 0 j -> nth_error data j = Some len ->
     has_ruuvi_id data j len = true ->
     mfg_data_at data j len = ruuvi_manufacturer_id ->
     fst (while_loop data 0 w) = Raise IndexError /\
     scanner (snd (parse_ruuvi_data data w)) = scanner w).
Proof.
  split.
  - intros e Hraise. pose proof (walk_verdict_sound data 0 w) as H.
    rewrite Hraise in H. destruct H as (He & j & len & Hp & Hlen & Hid & Hn).
    split; [assumption|]. exists j, len. repeat split; trivial.
    now apply vendor_id_without_format.
  - intros j len Hp Hlen Hid Hmfg.
    assert (Hn : nth_error (mfg_data_at data j len) 2 = None)
      by now rewrite Hmfg.
    assert (Hw : fst (while_loop data 0 w) = Raise IndexError).
    { destruct (passes_walk data 0 j Hp w) as (w' & -> & _).
      now rewrite (while_loop_short data j len w' Hlen Hid Hn). }
    split; [assumption|].
    apply parse_ruuvi_data_failure. now rewrite Hw.
Qed.

Lemma walk_raises_on_bare_vendor_id_witness :
  fst (while_loop bare_id_then_format5 0 boot) = Raise IndexError /\
  scanner (snd (parse_ruuvi_data bare_id_then_format5 boot)) = scanner boot.
Proof.
  apply (proj2 (walk_raises_on_bare_vendor_id bare_id_then_format5 boot)
               0 x03); try reflexivity.
  apply passes_here.
Defined.

(** X3: the walk falls off the end, and the method reports that no Ruuvi
    data was found, exactly when every structure up to the end of the
    payload is stepped over. *)
Theorem walk_falls_through_iff data w :
  fst (while_loop data 0 w) = Ok Fallthrough <->
  exists j, passes data 0 j /\ List.length data <= j.
Proof.
  split.
  - intros Hft. pose proof (walk_verdict_sound data 0 w) as H.
    now rewrite Hft in H.
  - intros (j & Hp & Hj).
    destruct (passes_walk data 0 j Hp w) as (w' & -> & _).
    now rewrite while_loop_exit.
Qed.

(** ** Ranges of the decoded values *)

Lemma from_bytes_big_16 bs :
  List.length bs <= 2 -> (0 <= from_bytes_big bs < 65536)%Z.
Proof.
  intros Hlen. pose proof (from_bytes_big_range bs) as [H0 H1].
  split; [assumption|].
  eapply Z.lt_le_trans; [exact H1|].
  change 65536%Z with (256 ^ Z.of_nat 2)%Z.
  apply Z.pow_le_mono_r; lia.
Qed.

Lemma reading_of_ranges mfg_data :
  (0 <= temperature (reading_of mfg_data) <= 327675 # 1000)%Q /\
  (0 <= humidity (reading_of mfg_data) <= 1638375 # 10000)%Q /\
  (500 <= pressure (reading_of mfg_data) <= 115535 # 100)%Q.
Proof.
  cbn [reading_of temperature humidity pressure].
  unfold parse_temperature, parse_humidity, parse_pressure.
  pose proof (from_bytes_big_16 (slice mfg_data 3 5)
                (slice_length_le mfg_data 3 5)) as Ht.
  pose proof (from_bytes_big_16 (slice mfg_data 5 7)
                (slice_length_le mfg_data 5 7)) as Hh.
  pose proof (from_bytes_big_16 (slice mfg_data 7 9)
                (slice_length_le mfg_data 7 9)) as Hp.
  set (t := from_bytes_big (slice mfg_data 3 5)) in *.
  set (h := from_bytes_big (slice mfg_data 5 7)) in *.
  set (p := from_bytes_big (slice mfg_data 7 9)) in *.
  assert (Qle_bool (inject_Z t * (5 # 1000)) 32767 = true) as ->.
  { unfold Qle_bool, Qmult, inject_Z. cbn [Qnum Qden]. apply Z.leb_le. lia. }
  unfold Qle, Qdiv, Qmult, Qinv, inject_Z. cbn [Qnum Qden].
  repeat split; lia.
Qed.

(** X4: every reading the decoder stores lies in the range the wire
    format allows: temperature between 0 and 327.675 (never negative),
    humidity between 0 and 163.8375, pressure between 500 and 1155.35. *)
Theorem decoded_reading_ranges data w :
  fst (while_loop data 0 w) = Ok Returned ->
  exists d,
    latest_data (scanner (snd (parse_ruuvi_data data w))) = Some d /\
    (0 <= temperature d <= 327675 # 1000)%Q /\
    (0 <= humidity d <= 1638375 # 10000)%Q /\
    (500 <= pressure d <= 115535 # 100)%Q.
Proof.
  intros Hret.
  set (w1 := snd (print (ParsingData data) w)).
  assert (Hret1 : fst (while_loop data 0 w1) = Ok Returned)
    by now rewrite (while_loop_result_indep data 0 w).
  destruct (while_loop_returned data 0 w1 (ad_first data) Hret1)
    as (i & len & _ & _ & _ & _ & _ & _ & _ & Hsc).
  exists (reading_of (mfg_data_at data i len)). split.
  - rewrite parse_ruuvi_data_scanner. fold w1. now rewrite Hsc.
  - apply reading_of_ranges.
Qed.

Lemma decoded_reading_ranges_witness :
  exists d,
    latest_data (scanner (snd (parse_ruuvi_data fixture_negative boot)))
    = Some d /\
    (0 <= temperature d <= 327675 # 1000)%Q /\
    (0 <= humidity d <= 1638375 # 10000)%Q /\
    (500 <= pressure d <= 115535 # 100)%Q.
Proof.
  apply (decoded_reading_ranges fixture_negative boot). reflexivity.
Defined.

(** ** What the callback can do to the scanner *)

Lemma parse_ruuvi_data_ok data w : fst (parse_ruuvi_data data w) = Ok tt.
Proof.
  rewrite parse_ruuvi_data_unfold.
  destruct (while_loop data 0 _) as [[[|]|e] w']; reflexivity.
Qed.

(** The method leaves the scanner alone or stores a reading with the flag
    up. *)
Lemma parse_ruuvi_data_effect data w :
  (returned (fst (while_loop data 0 w)) = false /\
   scanner (snd (parse_ruuvi_data data w)) = scanner w) \/
  (returned (fst (while_loop data 0 w)) = true /\
   exists d, scanner (snd (parse_ruuvi_data data w)) = mkScanner (Some d) true).
Proof.
  destruct (returned (fst (while_loop data 0 w))) eqn:Hret.
  - right. split; [reflexivity|].
    assert (Hr : fst (while_loop data 0 (snd (print (ParsingData data) w)))
                 = Ok Returned).
    { rewrite (while_loop_result_indep data 0 w).
      destruct (fst (while_loop data 0 w)) as [[|]|]; now try discriminate. }
    destruct (while_loop_returned data 0 _ (ad_first data) Hr)
      as (i & len & _ & _ & _ & _ & _ & _ & _ & Hsc).
    exists (reading_of (mfg_data_at data i len)).
    now rewrite parse_ruuvi_data_scanner.
  - left. split; [reflexivity|]. now apply parse_ruuvi_data_failure.
Qed.

(** X5: the callback never raises and never touches the LED or the
    sockets, whatever the event; it changes the scanner only for a scan
    result (event 5) from the configured address whose payload decodes, and
    then it stores a reading and raises the new-data flag. *)
Theorem irq_changes_scanner_only_on_decode mac event p w :
  fst (ble_irq mac event p w) = Ok tt /\
  led (snd (ble_irq mac event p w)) = led w /\
  wire (snd (ble_irq mac event p w)) = wire w /\
  (scanner (snd (ble_irq mac event p w)) = scanner w \/
   event = _IRQ_SCAN_RESULT /\
   lower (format_addr (addr p)) = lower mac /\
   fst (while_loop (adv_data p) 0 w) = Ok Returned /\
   exists d, scanner (snd (ble_irq mac event p w)) = mkScanner (Some d) true).
Proof.
  destruct (ble_irq_frame mac event p w) as [Hled Hwire].
  repeat split; trivial.
  - unfold ble_irq. destruct (event =? _IRQ_SCAN_RESULT)%Z.
    + destruct (String.eqb _ _); [|reflexivity].
      unfold bind. cbn [print]. apply parse_ruuvi_data_ok.
    + destruct (event =? _IRQ_SCAN_DONE)%Z; reflexivity.
  - unfold ble_irq. destruct (event =? _IRQ_SCAN_RESULT)%Z eqn:Hev.
    + destruct (String.eqb_spec (lower (format_addr (addr p))) (lower mac))
        as [Heq|Hne]; [|now left].
      unfold bind. cbn [print].
      set (w1 := mkWorld _ _ _ _).
      destruct (parse_ruuvi_data_effect (adv_data p) w1)
        as [[_ Hsame]|[Hret [d Hd]]].
      * left. exact Hsame.
      * right. apply Z.eqb_eq in Hev. repeat split; trivial.
        -- rewrite (while_loop_result_indep (adv_data p) 0 w w1) in Hret.
           destruct (fst (while_loop (adv_data p) 0 w)) as [[|]|];
             now try discriminate.
        -- now exists d.
    + destruct (event =? _IRQ_SCAN_DONE)%Z; now left.
Qed.

(** ** Which address the filter lets through *)

Lemma byte_of_format_02x b : byte_of_02x (format_02x b) = Some b.
Proof. destruct b; reflexivity. Qed.

Lemma format_02x_shape b :
  exists c1 c2, format_02x b = String c1 (String c2 EmptyString).
Proof. unfold format_02x. now eexists; eexists. Qed.

Lemma format_addr_cons b a :
  format_addr (b :: a) =
  match a with
  | [] => format_02x b
  | _ :: _ => (format_02x b ++ ":" ++ format_addr a)%string
  end.
Proof. unfold format_addr. cbn [map String.concat]. now destruct a. Qed.

(** Different addresses are written differently. *)
Lemma format_addr_injective a : forall b,
  format_addr a = format_addr b -> a = b.
Proof.
  induction a as [|x a IH]; intros [|y b] H.
  - reflexivity.
  - rewrite format_addr_cons in H.
    destruct (format_02x_shape y) as (c1 & c2 & Hy). rewrite Hy in H.
    destruct b; discriminate.
  - rewrite format_addr_cons in H.
    destruct (format_02x_shape x) as (c1 & c2 & Hx). rewrite Hx in H.
    destruct a; discriminate.
  - rewrite !format_addr_cons in H.
    pose proof (byte_of_format_02x x) as Bx.
    pose proof (byte_of_format_02x y) as By.
    destruct (format_02x_shape x) as (c1 & c2 & Hx).
    destruct (format_02x_shape y) as (d1 & d2 & Hy).
    rewrite Hx in H, Bx. rewrite Hy in H, By.
    destruct a as [|x' a]; destruct b as [|y' b]; cbn in H;
      try discriminate.
    + injection H as -> ->.
      cbn in Bx, By. rewrite Bx in By. now injection By as ->.
    + injection H as -> -> H.
      cbn in Bx, By. rewrite Bx in By. injection By as ->.
      f_equal. now apply IH.
Qed.

(** X6: when the configured [RUUVI_MAC] spells the address [target] in
    any mix of upper and lower case, the callback hands a scan result to the
    decoder if its address bytes are exactly [target], and ignores it
    otherwise. *)
Theorem filter_selects_exactly_target mac target p w :
  lower mac = format_addr target ->
  (addr p = target ->
   ble_irq mac _IRQ_SCAN_RESULT p w =
   parse_ruuvi_data (adv_data p)
                    (snd (print (FoundRuuviTag (adv_data p)) w))) /\
  (addr p <> target -> ble_irq mac _IRQ_SCAN_RESULT p w = (Ok tt, w)).
Proof.
  intros Hmac. unfold ble_irq. cbn [Z.eqb _IRQ_SCAN_RESULT Pos.eqb].
  rewrite lower_format_addr, Hmac. split.
  - intros ->. now rewrite String.eqb_refl.
  - intros Hne.
    destruct (String.eqb_spec (format_addr (addr p)) (format_addr target))
      as [Heq|_]; [|reflexivity].
    now apply format_addr_injective in Heq.
Qed.

Lemma filter_selects_exactly_target_witness :
  ble_irq "Aa:bB:CC:dd:EE:ff" _IRQ_SCAN_RESULT
          (mkScanResult 0 [xaa; xbb; xcc; xdd; xee; x00] 0 (-70) fixture)
          fresh_world = (Ok tt, fresh_world).
Proof.
  apply (proj2 (filter_selects_exactly_target "Aa:bB:CC:dd:EE:ff" tag_addr
                  (mkScanResult 0 [xaa; xbb; xcc; xdd; xee; x00] 0 (-70)
                                fixture)
                  fresh_world eq_refl)).
  cbn. discriminate.
Defined.

(** ** Radio events in sequence *)

Section Events.

Variable RUUVI_MAC : string.

Lemma deliver_app evs1 evs2 : forall w,
  deliver RUUVI_MAC (evs1 ++ evs2) w =
  deliver RUUVI_MAC evs2 (snd (deliver RUUVI_MAC evs1 w)).
Proof.
  induction evs1 as [|[event data] evs1 IH]; intros w; cbn [deliver app].
  - reflexivity.
  - apply IH.
Qed.

Lemma ble_irq_effect event p w :
  scanner (snd (ble_irq RUUVI_MAC event p w)) = scanner w \/
  exists d, scanner (snd (ble_irq RUUVI_MAC event p w)) = mkScanner (Some d) true.
Proof.
  unfold ble_irq. destruct (event =? _IRQ_SCAN_RESULT)%Z.
  - destruct (String.eqb _ _); [|now left].
    unfold bind. cbn [print].
    set (w1 := mkWorld _ _ _ _).
    destruct (parse_ruuvi_data_effect (adv_data p) w1)
      as [[_ Hsame]|[_ Hd]]; [left; exact Hsame | right; exact Hd].
  - destruct (event =? _IRQ_SCAN_DONE)%Z; now left.
Qed.

Lemma deliver_effect evs : forall w,
  scanner (snd (deliver RUUVI_MAC evs w)) = scanner w \/
  exists d, scanner (snd (deliver RUUVI_MAC evs w)) = mkScanner (Some d) true.
Proof.
  induction evs as [|[event p] evs IH]; intros w; cbn [deliver].
  - now left.
  - destruct (IH (snd (ble_irq RUUVI_MAC event p w))) as [Hsame|Hd];
      [|now right].
    rewrite Hsame. apply ble_irq_effect.
Qed.

(** After a scan result from the target whose payload decodes, the scanner
    holds that payload's reading, whatever came before. *)
Lemma deliver_last_decoded evs p w :
  lower (format_addr (addr p)) = lower RUUVI_MAC ->
  fst (while_loop (adv_data p) 0 w) = Ok Returned ->
  scanner (snd (deliver RUUVI_MAC (evs ++ [(_IRQ_SCAN_RESULT, p)]) w)) =
  scanner (snd (parse_ruuvi_data (adv_data p) w)).
Proof.
  intros Hmatch Hret. rewrite deliver_app. cbn [deliver ret snd].
  unfold ble_irq. cbn [Z.eqb _IRQ_SCAN_RESULT Pos.eqb].
  apply String.eqb_eq in Hmatch. rewrite Hmatch.
  unfold bind. cbn [print].
  now apply parse_ruuvi_data_decoded_indep.
Qed.

(** Events other than scan results leave the scanner alone. *)
Lemma deliver_other_events rest : forall w,
  Forall (fun ev => fst ev <> _IRQ_SCAN_RESULT) rest ->
  scanner (snd (deliver RUUVI_MAC rest w)) = scanner w.
Proof.
  induction rest as [|[event p] rest IH]; intros w Hall; cbn [deliver].
  - reflexivity.
  - inversion Hall as [|? ? Hev Hrest]; subst. cbn [fst] in Hev.
    rewrite (IH _ Hrest). unfold ble_irq.
    apply Z.eqb_neq in Hev. rewrite Hev.
    destruct (event =? _IRQ_SCAN_DONE)%Z; reflexivity.
Qed.

End Events.

(** ** Invariants of the running server *)

Section Invariant.

Variable RUUVI_MAC : string.
Variable float_repr : Q -> string.
Variable ticks_diff : Z -> Z -> Z.
Variable dict_items : list (string * json) -> list (string * json).

(** What one iteration can make of the scanner: nothing, a fresh reading,
    or either of these with the flag cleared. *)
Lemma iteration_effect now a t w :
  let sc' := scanner (snd (iteration RUUVI_MAC float_repr ticks_diff dict_items now a t w)) in
  sc' = scanner w \/
  (exists d, sc' = mkScanner (Some d) true) \/
  sc' = mkScanner (latest_data (scanner w)) false \/
  (exists d, sc' = mkScanner (Some d) false).
Proof.
  cbv zeta. unfold iteration.
  set (w1 := if (ticks_diff now (last_blink t) >=? _)%Z
             then (now, snd (blink_led w)) else (last_blink t, w)).
  assert (Hw1 : scanner (snd w1) = scanner w)
    by (subst w1; destruct (_ >=? _)%Z; reflexivity).
  destruct w1 as [last w1]. cbn [snd] in *.
  unfold try_except.
  destruct a as [errno|c].
  - unfold raise. left. now rewrite connection_error_scanner.
  - pose proof (handle_client_cases RUUVI_MAC float_repr dict_items c w1) as [_ H].
    cbv zeta in H.
    pose proof (deliver_effect RUUVI_MAC (irqs c) w1) as Hd.
    rewrite Hw1 in Hd.
    destruct (handle_client RUUVI_MAC float_repr dict_items c w1) as [r w2].
    cbn [fst snd] in H.
    destruct (recv c) as [request|e1];
      [destruct (gap_scan c) as [[]|e2];
       [destruct (send c) as [[]|e3]|]|];
      destruct H as (-> & Hsc & _);
      rewrite ?connection_error_scanner; cbn [snd]; rewrite Hsc, ?Hw1;
      auto.
    + destruct Hd as [->|[d ->]]; cbn [latest_data]; eauto.
    + destruct Hd as [->|[d ->]]; eauto.
Qed.

Variable Inv : BLEScanner -> Prop.
Hypothesis Inv_decoded : forall d, Inv (mkScanner (Some d) true).
Hypothesis Inv_cleared : forall sc, Inv sc -> Inv (mkScanner (latest_data sc) false).

(** A property of the scanner that holds of every freshly decoded state
    and survives clearing the flag holds along every run of the loop. *)
Lemma serve_loop_preserves evs : forall t w,
  Inv (scanner w) ->
  Inv (scanner (snd (serve_loop RUUVI_MAC float_repr ticks_diff dict_items evs t w))).
Proof.
  induction evs as [|[now a] evs IH]; intros t w HQ; cbn [serve_loop].
  - assumption.
  - pose proof (iteration_effect now a t w) as H. cbv zeta in H.
    destruct (iteration RUUVI_MAC float_repr ticks_diff dict_items now a t w) as [t' w'].
    cbn [snd] in H. apply IH.
    destruct H as [->|[[d ->]|[->|[d ->]]]]; auto.
    apply (Inv_cleared (mkScanner (Some d) true)), Inv_decoded.
Qed.

End Invariant.

(** X7: along every run of the server loop from a state where the
    new-data flag implies a stored reading (as right after start-up), the
    flag still implies a stored reading: the fast heartbeat never announces
    a reading that is not there. *)
Theorem flag_implies_stored_reading mac float_repr ticks_diff dict_items evs t w :
  consistent (scanner w) ->
  consistent (scanner (snd (serve_loop mac float_repr ticks_diff dict_items evs t w))).
Proof.
  apply (serve_loop_preserves mac float_repr ticks_diff dict_items consistent).
  - intros d _. discriminate.
  - intros sc _ H. discriminate.
Qed.

(** X8: a stored reading is never erased: once a reading is stored,
    every later state of the server loop holds a reading, so no later
    response carries nulls. *)
Theorem stored_reading_is_never_erased mac float_repr ticks_diff dict_items evs t w :
  latest_data (scanner w) <> None ->
  latest_data (scanner (snd (serve_loop mac float_repr ticks_diff dict_items evs t w)))
  <> None.
Proof.
  apply (serve_loop_preserves mac float_repr ticks_diff dict_items
           (fun sc => latest_data sc <> None)).
  - intros d. discriminate.
  - intros sc H. exact H.
Qed.

Lemma flag_implies_stored_reading_witness :
  consistent
    (scanner (snd (serve_loop "aa:bb:cc:dd:ee:ff" (fun _ => "0.0"%string)
                              Z.sub mp_dict_items three_ticks (mkTimers 0 1000) boot))).
Proof.
  apply (flag_implies_stored_reading "aa:bb:cc:dd:ee:ff"
           (fun _ => "0.0"%string) Z.sub mp_dict_items three_ticks (mkTimers 0 1000) boot).
  intros H. discriminate.
Defined.

Lemma stored_reading_is_never_erased_witness :
  latest_data
    (scanner (snd (serve_loop "aa:bb:cc:dd:ee:ff" (fun _ => "0.0"%string)
                              Z.sub mp_dict_items three_ticks (mkTimers 0 1000)
                              fresh_world)))
  <> None.
Proof.
  apply (stored_reading_is_never_erased "aa:bb:cc:dd:ee:ff"
           (fun _ => "0.0"%string) Z.sub mp_dict_items three_ticks (mkTimers 0 1000)
           fresh_world).
  discriminate.
Defined.

(** ** The heartbeat and the wire *)

Section Loop.

Variable RUUVI_MAC : string.
Variable float_repr : Q -> string.
Variable ticks_diff : Z -> Z -> Z.
Variable dict_items : list (string * json) -> list (string * json).

Lemma connection_error_frame e w :
  led (snd (connection_error e w)) = led w /\
  wire (snd (connection_error e w)) = wire w.
Proof.
  destruct e as [|errno|]; cbn; try now split.
  destruct (errno =? 11)%Z; now split.
Qed.

(** Accepting and handling: the LED is not touched, and one response is
    written exactly when the client is served. *)
Lemma attempt_led_wire a w :
  let w' :=
    snd (try_except
           (match a with
            | AcceptRaises errno => raise (OSError errno)
            | Accepted c => handle_client RUUVI_MAC float_repr dict_items c
            end) connection_error w) in
  led w' = led w /\
  wire w' =
  if is_served a then
    wire w ++ [response_str (json_dumps float_repr dict_items
                               (response (latest_data (scanner w'))))]
  else wire w.
Proof.
  cbv zeta. unfold try_except. destruct a as [errno|c].
  - unfold raise. cbn [is_served]. apply connection_error_frame.
  - pose proof (handle_client_cases RUUVI_MAC float_repr dict_items c w) as [Hled H].
    cbv zeta in H, Hled. unfold is_served, served.
    destruct (handle_client RUUVI_MAC float_repr dict_items c w) as [r w2].
    cbn [fst snd] in H, Hled.
    destruct (recv c) as [request|e1];
      [destruct (gap_scan c) as [[]|e2];
       [destruct (send c) as [[]|e3]|]|];
      destruct H as (-> & Hsc & Hwire).
    + cbn [snd]. split; [assumption|].
      rewrite Hsc. cbn [latest_data]. exact Hwire.
    + destruct (connection_error_frame e3 w2) as [-> ->]. now split.
    + destruct (connection_error_frame e2 w2) as [-> ->]. now split.
    + destruct (connection_error_frame e1 w2) as [-> ->]. now split.
Qed.

(** What an iteration does to the LED and to the sockets. *)
Lemma iteration_led_wire now a t w :
  let r := iteration RUUVI_MAC float_repr ticks_diff dict_items now a t w in
  let interval := if data_received (scanner w) then 500%Z else 1000%Z in
  let due := (ticks_diff now (last_blink t) >=? interval)%Z in
  blink_interval (fst r) = interval /\
  last_blink (fst r) = (if due then now else last_blink t) /\
  led (snd r) = (if due then negb (led w) else led w) /\
  wire (snd r) =
  if is_served a then
    wire w ++ [response_str (json_dumps float_repr dict_items
                               (response (latest_data (scanner (snd r)))))]
  else wire w.
Proof.
  cbv zeta. unfold iteration.
  set (interval := if data_received (scanner w) then 500%Z else 1000%Z).
  destruct (ticks_diff now (last_blink t) >=? interval)%Z;
    cbn [fst snd blink_interval last_blink].
  - destruct (attempt_led_wire a (snd (blink_led w))) as [Hled Hwire].
    repeat split; trivial.
  - destruct (attempt_led_wire a w) as [Hled Hwire].
    repeat split; trivial.
Qed.

End Loop.

Lemma response_str_status body :
  String.prefix status_line (response_str body) = true.
Proof. reflexivity. Qed.

Section Requests.

Variable RUUVI_MAC : string.
Variable float_repr : Q -> string.
Variable ticks_diff : Z -> Z -> Z.
Variable dict_items : list (string * json) -> list (string * json).

(** The scanner after an iteration, by what became of the request. *)
Lemma iteration_scanner now a t w :
  let sc' := scanner (snd (iteration RUUVI_MAC float_repr ticks_diff dict_items now a t w)) in
  match a with
  | AcceptRaises _ => sc' = scanner w
  | Accepted c =>
      let sc := scanner (snd (deliver RUUVI_MAC (irqs c) w)) in
      if served c then sc' = mkScanner (latest_data sc) false
      else sc' = scanner w \/ sc' = sc
  end.
Proof.
  cbv zeta. unfold iteration.
  set (w1 := if (ticks_diff now (last_blink t) >=? _)%Z
             then (now, snd (blink_led w)) else (last_blink t, w)).
  assert (Hw1 : scanner (snd w1) = scanner w)
    by (subst w1; destruct (_ >=? _)%Z; reflexivity).
  destruct w1 as [last w1]. cbn [snd] in *.
  unfold try_except.
  destruct a as [errno|c].
  - unfold raise. now rewrite connection_error_scanner.
  - pose proof (handle_client_cases RUUVI_MAC float_repr dict_items c w1) as [_ H].
    cbv zeta in H.
    rewrite (deliver_scanner_indep RUUVI_MAC (irqs c) w w1 Hw1) in H.
    unfold served.
    destruct (handle_client RUUVI_MAC float_repr dict_items c w1) as [r w2].
    cbn [fst snd] in H.
    destruct (recv c) as [request|e1];
      [destruct (gap_scan c) as [[]|e2];
       [destruct (send c) as [[]|e3]|]|];
      destruct H as (-> & Hsc & _);
      rewrite ?connection_error_scanner; cbn [snd]; rewrite Hsc, ?Hw1; auto.
Qed.

(** X9: the heartbeat.  An iteration takes 500 ms as blink interval when
    the new-data flag is up on entry and 1000 ms otherwise; it toggles the
    LED and restarts the blink timer exactly when [ticks_diff] of now and
    the last toggle has reached that interval; whatever becomes of the
    client, nothing else in the iteration touches the LED. *)
Theorem heartbeat_follows_flag now a t w :
  let r := iteration RUUVI_MAC float_repr ticks_diff dict_items now a t w in
  let interval := if data_received (scanner w) then 500%Z else 1000%Z in
  let due := (ticks_diff now (last_blink t) >=? interval)%Z in
  blink_interval (fst r) = interval /\
  last_blink (fst r) = (if due then now else last_blink t) /\
  led (snd r) = (if due then negb (led w) else led w).
Proof.
  pose proof (iteration_led_wire RUUVI_MAC float_repr ticks_diff dict_items now a t w)
    as H. cbv zeta in *. tauto.
Qed.

(** X10: a request that is not served (the accept, the read, the start of
    the scan or the write failed) puts nothing on the wire and does not
    clear the new-data flag: a reading that was waiting is still announced
    afterwards. *)
Theorem unserved_request_keeps_flag now a t w :
  is_served a = false ->
  let w' := snd (iteration RUUVI_MAC float_repr ticks_diff dict_items now a t w) in
  wire w' = wire w /\
  (data_received (scanner w) = true -> data_received (scanner w') = true) /\
  (latest_data (scanner w) <> None -> latest_data (scanner w') <> None).
Proof.
  intros Hns. cbv zeta.
  pose proof (iteration_led_wire RUUVI_MAC float_repr ticks_diff dict_items now a t w)
    as (_ & _ & _ & Hwire).
  pose proof (iteration_scanner now a t w) as Hsc.
  cbv zeta in Hwire, Hsc. rewrite Hns in Hwire.
  split; [assumption|].
  destruct a as [errno|c].
  - now rewrite Hsc.
  - cbn [is_served] in Hns. cbv beta iota zeta in Hsc. rewrite Hns in Hsc.
    destruct (deliver_effect RUUVI_MAC (irqs c) w) as [Hd|[d Hd]];
      rewrite Hd in Hsc; destruct Hsc as [->| ->]; cbn; auto;
      split; auto; discriminate.
Qed.

(** X11: a reading from the radio reaches the client in the same request.
    When a request is served and the last scan result that the callback
    receives while the handler sleeps ([time.sleep(1)], main.py:146) comes
    from the target and its payload decodes (other events, such as the end
    of the scan, may follow it within that second), then the reading stored
    afterwards is the one of the decoded structure, the new-data flag is
    down, and the one message written has as body the JSON object whose
    members are ["temperature": t], ["humidity": h] and ["pressure": p],
    with [t], [h], [p] the renderings of the three values decoded from that
    structure, in the dict's iteration order ([temperature, humidity,
    pressure] when that is the insertion order). *)
Theorem scan_result_is_served now c t w evs p rest :
  served c = true ->
  (forall latest, Permutation (dict_items (response latest)) (response latest)) ->
  irqs c = evs ++ (_IRQ_SCAN_RESULT, p) :: rest ->
  Forall (fun ev => fst ev <> _IRQ_SCAN_RESULT) rest ->
  lower (format_addr (addr p)) = lower RUUVI_MAC ->
  fst (while_loop (adv_data p) 0 w) = Ok Returned ->
  let w' := snd (iteration RUUVI_MAC float_repr ticks_diff dict_items now (Accepted c) t w) in
  exists j len members,
    passes (adv_data p) 0 j /\
    nth_error (adv_data p) j = Some len /\
    has_ruuvi_id (adv_data p) j len = true /\
    scanner w' =
    mkScanner (Some (reading_of (mfg_data_at (adv_data p) j len))) false /\
    Permutation members
      [ (dq ++ "temperature" ++ dq ++ ": " ++
         float_repr (parse_temperature (mfg_data_at (adv_data p) j len)))%string;
        (dq ++ "humidity" ++ dq ++ ": " ++
         float_repr (parse_humidity (mfg_data_at (adv_data p) j len)))%string;
        (dq ++ "pressure" ++ dq ++ ": " ++
         float_repr (parse_pressure (mfg_data_at (adv_data p) j len)))%string ] /\
    wire w' =
    wire w ++ [response_str ("{" ++ String.concat ", " members ++ "}")] /\
    ((forall d, dict_items (response (Some d)) = response (Some d)) ->
     wire w' =
     wire w ++
     [response_str
        ("{" ++ String.concat ", "
           [ (dq ++ "temperature" ++ dq ++ ": " ++
              float_repr (parse_temperature (mfg_data_at (adv_data p) j len)))%string;
             (dq ++ "humidity" ++ dq ++ ": " ++
              float_repr (parse_humidity (mfg_data_at (adv_data p) j len)))%string;
             (dq ++ "pressure" ++ dq ++ ": " ++
              float_repr (parse_pressure (mfg_data_at (adv_data p) j len)))%string ]
         ++ "}")]).
Proof.
  intros Hserved Hperm Hirqs Hrest Hmatch Hret. cbv zeta.
  pose proof (iteration_led_wire RUUVI_MAC float_repr ticks_diff dict_items now
                (Accepted c) t w) as (_ & _ & _ & Hwire).
  pose proof (iteration_scanner now (Accepted c) t w) as Hsc.
  cbv beta iota zeta in Hwire, Hsc. cbn [is_served] in Hwire.
  rewrite Hserved in Hwire, Hsc.
  replace (evs ++ (_IRQ_SCAN_RESULT, p) :: rest)
    with ((evs ++ [(_IRQ_SCAN_RESULT, p)]) ++ rest) in Hirqs
    by now rewrite <- app_assoc.
  rewrite Hirqs, deliver_app, (deliver_other_events RUUVI_MAC rest _ Hrest),
    (deliver_last_decoded RUUVI_MAC evs p w Hmatch Hret) in Hsc.
  pose proof (walk_verdict_sound (adv_data p) 0 w) as Hv.
  rewrite Hret in Hv.
  destruct Hv as (j & len & fmt & Hp & Hlen & Hid & Hfmt & Heq).
  destruct (walk_decodes_at (adv_data p) w j len fmt Hp Hlen Hid Hfmt Heq)
    as [_ Hd].
  rewrite Hd in Hsc. cbn [latest_data] in Hsc.
  rewrite Hsc in Hwire. cbn [latest_data] in Hwire.
  exists j, len,
    (map (json_member float_repr)
         (dict_items (response (Some (reading_of (mfg_data_at (adv_data p) j len)))))).
  repeat split; trivial.
  - change (Permutation
              (map (json_member float_repr)
                   (dict_items (response (Some (reading_of
                      (mfg_data_at (adv_data p) j len))))))
              (map (json_member float_repr)
                   (response (Some (reading_of
                      (mfg_data_at (adv_data p) j len)))))).
    apply Permutation_map, Hperm.
  - intros Hid'. rewrite Hwire. unfold json_dumps. rewrite Hid'.
    reflexivity.
Qed.

(** X12: along a run of the loop, the wire grows by exactly one message
    for every served client and by nothing else, and every message starts
    with the status line [HTTP/1.0 200 OK]. *)
Theorem one_response_per_served_client evs : forall t w,
  exists msgs,
    wire (snd (serve_loop RUUVI_MAC float_repr ticks_diff dict_items evs t w)) =
    wire w ++ msgs /\
    List.length msgs = List.length (filter is_served (map snd evs)) /\
    Forall (fun m => String.prefix status_line m = true) msgs.
Proof.
  induction evs as [|[now a] evs IH]; intros t w; cbn [serve_loop].
  - exists []. rewrite app_nil_r. repeat split. constructor.
  - pose proof (iteration_led_wire RUUVI_MAC float_repr ticks_diff dict_items now a t w)
      as (_ & _ & _ & Hwire). cbv zeta in Hwire.
    destruct (iteration RUUVI_MAC float_repr ticks_diff dict_items now a t w) as [t' w'].
    cbn [snd] in Hwire.
    destruct (IH t' w') as (msgs & Hw & Hlen & Hall).
    cbn [map snd filter]. destruct (is_served a).
    + eexists (_ :: msgs). rewrite Hw, Hwire, <- app_assoc.
      split; [reflexivity|]. split; [cbn; now rewrite Hlen|].
      constructor; [apply response_str_status | assumption].
    + exists msgs. rewrite Hw, Hwire. auto.
Qed.

End Requests.

Lemma unserved_request_keeps_flag_witness :
  let w' := snd (iteration "aa:bb:cc:dd:ee:ff" (fun _ => "0.0"%string) Z.sub mp_dict_items
                           2000 (Accepted client_send_fails)
                           (mkTimers 0 1000) fresh_world) in
  wire w' = [] /\
  data_received (scanner w') = true /\
  latest_data (scanner w') <> None.
Proof.
  destruct (unserved_request_keeps_flag
              "aa:bb:cc:dd:ee:ff" (fun _ => "0.0"%string) Z.sub mp_dict_items
              2000 (Accepted client_send_fails) (mkTimers 0 1000)
              fresh_world eq_refl) as (H1 & H2 & H3).
  split; [exact H1|]. split; [apply H2; reflexivity | apply H3; discriminate].
Defined.


(** * Joining the network *)

Section WifiProperties.

Variable status : nat -> Z.
Variable ip : string.

(** The wait loop polls at most twice and sleeps at most once per unit of
    [max_wait]. *)
Lemma wait_for_connection_bounds max_wait : forall st,
  let st' := wait_for_connection status max_wait st in
  polls st <= polls st' <= polls st + 2 * max_wait /\
  slept st <= slept st' <= slept st + max_wait.
Proof.
  induction max_wait as [|n IH]; intros st; cbn [wait_for_connection].
  - lia.
  - destruct (status (polls st) <? 0)%Z; [cbn; lia|].
    destruct (status (polls st + 1) >=? 3)%Z; [cbn; lia|].
    specialize (IH (mkWlan (polls st + 2) (slept st + 1)
                           (wifi_out st ++ [WaitingForConnection]))).
    cbv zeta in IH. cbn [polls slept] in IH. lia.
Qed.

(** While every answer is one of 0, 1, 2 the loop waits. *)
Lemma wait_for_connection_pending max_wait : forall st,
  (forall k, polls st <= k < polls st + 2 * max_wait ->
             (0 <= status k < 3)%Z) ->
  wait_for_connection status max_wait st =
  mkWlan (polls st + 2 * max_wait) (slept st + max_wait)
         (wifi_out st ++ repeat WaitingForConnection max_wait).
Proof.
  induction max_wait as [|n IH]; intros st Hpend; cbn [wait_for_connection].
  - cbn [repeat]. rewrite app_nil_r, !Nat.add_0_r. now destruct st.
  - assert (H0 : (0 <= status (polls st) < 3)%Z) by (apply Hpend; lia).
    assert (H1 : (0 <= status (polls st + 1) < 3)%Z) by (apply Hpend; lia).
    assert ((status (polls st) <? 0)%Z = false) as -> by (apply Z.ltb_ge; lia).
    assert ((status (polls st + 1) >=? 3)%Z = false) as ->
      by (rewrite Z.geb_leb; apply Z.leb_gt; lia).
    rewrite IH; cbn [polls slept wifi_out].
    + f_equal; try lia. now rewrite <- app_assoc.
    + intros k Hk. apply Hpend. lia.
Qed.

(** After [q] seconds of waiting the loop stops at the first answer that
    is negative, or at the second one when that is 3 or more. *)
Lemma wait_for_connection_breaks max_wait q : forall st,
  q < max_wait ->
  (forall k, polls st <= k < polls st + 2 * q -> (0 <= status k < 3)%Z) ->
  wait_for_connection status max_wait st =
  if (status (polls st + 2 * q) <? 0)%Z then
    mkWlan (polls st + 2 * q + 1) (slept st + q)
           (wifi_out st ++ repeat WaitingForConnection q)
  else if (status (polls st + 2 * q + 1) >=? 3)%Z then
    mkWlan (polls st + 2 * q + 2) (slept st + q)
           (wifi_out st ++ repeat WaitingForConnection q)
  else
    wait_for_connection status (max_wait - q - 1)
      (mkWlan (polls st + 2 * q + 2) (slept st + q + 1)
              (wifi_out st ++ repeat WaitingForConnection (q + 1))).
Proof.
  revert q. induction max_wait as [|n IH]; intros q st Hq Hpend; [lia|].
  destruct q as [|q].
  - cbn [wait_for_connection repeat Nat.mul]. rewrite !Nat.add_0_r.
    replace (S n - 0 - 1) with n by lia. rewrite app_nil_r.
    replace (0 + 1) with 1 by lia. cbn [repeat]. reflexivity.
  - cbn [wait_for_connection].
    assert (H0 : (0 <= status (polls st) < 3)%Z) by (apply Hpend; lia).
    assert (H1 : (0 <= status (polls st + 1) < 3)%Z) by (apply Hpend; lia).
    assert ((status (polls st) <? 0)%Z = false) as -> by (apply Z.ltb_ge; lia).
    assert ((status (polls st + 1) >=? 3)%Z = false) as ->
      by (rewrite Z.geb_leb; apply Z.leb_gt; lia).
    rewrite (IH q); cbn [polls slept wifi_out]; [|lia|].
    + replace (polls st + 2 + 2 * q) with (polls st + 2 * S q) by lia.
      replace (slept st + 1 + q) with (slept st + S q) by lia.
      replace (n - q - 1) with (S n - S q - 1) by lia.
      replace (slept st + S q + 1) with (slept st + 1 + q + 1) by lia.
      rewrite <- !app_assoc.
      change ([WaitingForConnection] ++ repeat WaitingForConnection q)
        with (repeat WaitingForConnection (S q)).
      change ([WaitingForConnection] ++ repeat WaitingForConnection (q + 1))
        with (repeat WaitingForConnection (S (q + 1))).
      replace (S (q + 1)) with (S q + 1) by lia.
      replace (slept st + 1 + q + 1) with (slept st + S q + 1) by lia.
      reflexivity.
    + intros k Hk. apply Hpend. lia.
Qed.

(** X13: the retry budget.  Whatever the driver answers, [connect_wifi]
    sleeps at most 10 times and asks for the status at most 21 times; it
    returns the address exactly when the status it read last, after the
    wait loop, is 3, and raises otherwise. *)
Theorem connect_wifi_retry_budget st :
  let r := connect_wifi status ip st in
  slept st <= slept (snd r) <= slept st + 10 /\
  polls st + 1 <= polls (snd r) <= polls st + 21 /\
  (status (polls (snd r) - 1) = 3%Z -> fst r = ReturnsIP ip) /\
  (status (polls (snd r) - 1) <> 3%Z -> fst r = NetworkConnectionFailed).
Proof.
  cbv zeta. unfold connect_wifi.
  pose proof (wait_for_connection_bounds 10
                (mkWlan (polls st) (slept st)
                        (wifi_out st ++ [ConnectingToWiFi]))) as Hb.
  cbv zeta in Hb. cbn [polls slept] in Hb.
  set (st2 := wait_for_connection status 10 _) in *.
  destruct (status (polls st2) =? 3)%Z eqn:E;
    cbn [negb fst snd polls slept];
    rewrite Nat.add_sub;
    (split; [lia|]); (split; [lia|]).
  - split; [reflexivity|]. apply Z.eqb_eq in E. congruence.
  - split; [|reflexivity]. apply Z.eqb_neq in E. congruence.
Qed.

(** X14: the timeout.  If every answer of the driver is 0, 1 or 2, the
    function waits the full 10 seconds, asks 21 times, and raises. *)
Theorem connect_wifi_times_out st :
  (forall k, polls st <= k -> (0 <= status k < 3)%Z) ->
  connect_wifi status ip st =
  (NetworkConnectionFailed,
   mkWlan (polls st + 21) (slept st + 10)
          (wifi_out st ++ ConnectingToWiFi :: repeat WaitingForConnection 10)).
Proof.
  intros Hpend. unfold connect_wifi.
  rewrite wait_for_connection_pending
    by (cbn [polls]; intros k Hk; apply Hpend; lia).
  cbn [polls slept wifi_out].
  assert (H : (0 <= status (polls st + 2 * 10) < 3)%Z) by (apply Hpend; lia).
  assert ((status (polls st + 2 * 10) =? 3)%Z = false) as ->
    by (apply Z.eqb_neq; lia).
  cbn [negb]. f_equal. f_equal; try lia. now rewrite <- app_assoc.
Qed.

(** X15: the link comes up.  If the driver answers 0, 1 or 2 during the
    first [q < 10] seconds and then a non-negative status, a status of 3 or
    more, and 3, the function returns the address after exactly [q] sleeps
    and [2q + 3] calls. *)
Theorem connect_wifi_returns_when_up st q :
  q < 10 ->
  (forall k, polls st <= k < polls st + 2 * q -> (0 <= status k < 3)%Z) ->
  (0 <= status (polls st + 2 * q))%Z ->
  (3 <= status (polls st + 2 * q + 1))%Z ->
  status (polls st + 2 * q + 2) = 3%Z ->
  connect_wifi status ip st =
  (ReturnsIP ip,
   mkWlan (polls st + 2 * q + 3) (slept st + q)
          (wifi_out st ++ ConnectingToWiFi :: repeat WaitingForConnection q
                    ++ [WifiConnected; WifiIP ip])).
Proof.
  intros Hq Hpend H0 H1 H2. unfold connect_wifi.
  rewrite (wait_for_connection_breaks 10 q) by (cbn [polls]; auto).
  cbn [polls slept wifi_out].
  assert ((status (polls st + 2 * q) <? 0)%Z = false) as ->
    by (apply Z.ltb_ge; lia).
  assert ((status (polls st + 2 * q + 1) >=? 3)%Z = true) as ->
    by (rewrite Z.geb_leb; apply Z.leb_le; lia).
  cbn [polls slept wifi_out]. rewrite H2. cbn [Z.eqb Pos.eqb negb].
  f_equal. f_equal; try lia. now rewrite <- !app_assoc.
Qed.

(** X16: the link fails.  If, after [q < 10] seconds of answers 0, 1 or
    2, the driver reports a negative status, the function stops waiting at
    once and raises, unless the very next answer is 3. *)
Theorem connect_wifi_fails_fast st q :
  q < 10 ->
  (forall k, polls st <= k < polls st + 2 * q -> (0 <= status k < 3)%Z) ->
  (status (polls st + 2 * q) < 0)%Z ->
  status (polls st + 2 * q + 1) <> 3%Z ->
  connect_wifi status ip st =
  (NetworkConnectionFailed,
   mkWlan (polls st + 2 * q + 2) (slept st + q)
          (wifi_out st ++ ConnectingToWiFi :: repeat WaitingForConnection q)).
Proof.
  intros Hq Hpend H0 H1. unfold connect_wifi.
  rewrite (wait_for_connection_breaks 10 q) by (cbn [polls]; auto).
  cbn [polls slept wifi_out].
  assert ((status (polls st + 2 * q) <? 0)%Z = true) as ->
    by (apply Z.ltb_lt; lia).
  cbn [polls slept wifi_out].
  apply Z.eqb_neq in H1. rewrite H1. cbn [negb].
  f_equal. f_equal; try lia. now rewrite <- app_assoc.
Qed.

End WifiProperties.

Lemma connect_wifi_retry_budget_witness :
  fst (connect_wifi status_up_from_5 "192.168.1.20" wlan0)
  = ReturnsIP "192.168.1.20".
Proof.
  apply (proj1 (proj2 (proj2 (connect_wifi_retry_budget
                                status_up_from_5 "192.168.1.20" wlan0)))).
  reflexivity.
Defined.

Lemma connect_wifi_times_out_witness :
  connect_wifi status_connecting "192.168.1.20" wlan0 =
  (NetworkConnectionFailed,
   mkWlan (polls wlan0 + 21) (slept wlan0 + 10)
          (wifi_out wlan0
             ++ ConnectingToWiFi :: repeat WaitingForConnection 10)).
Proof.
  apply (connect_wifi_times_out status_connecting "192.168.1.20" wlan0).
  intros k _. unfold status_connecting. lia.
Defined.

Lemma connect_wifi_returns_when_up_witness :
  connect_wifi status_up_from_5 "192.168.1.20" wlan0 =
  (ReturnsIP "192.168.1.20",
   mkWlan (polls wlan0 + 2 * 2 + 3) (slept wlan0 + 2)
          (wifi_out wlan0
             ++ ConnectingToWiFi :: repeat WaitingForConnection 2
             ++ [WifiConnected; WifiIP "192.168.1.20"])).
Proof.
  apply (connect_wifi_returns_when_up status_up_from_5 "192.168.1.20" wlan0 2).
  - lia.
  - intros k Hk. cbn in Hk. unfold status_up_from_5.
    assert ((k <? 5) = true) as -> by (apply Nat.ltb_lt; lia). lia.
  - vm_compute. discriminate.
  - vm_compute. discriminate.
  - reflexivity.
Defined.

Lemma connect_wifi_fails_fast_witness :
  connect_wifi status_fails_from_2 "192.168.1.20" wlan0 =
  (NetworkConnectionFailed,
   mkWlan (polls wlan0 + 2 * 1 + 2) (slept wlan0 + 1)
          (wifi_out wlan0
             ++ ConnectingToWiFi :: repeat WaitingForConnection 1)).
Proof.
  apply (connect_wifi_fails_fast status_fails_from_2 "192.168.1.20" wlan0 1).
  - lia.
  - intros k Hk. cbn in Hk. unfold status_fails_from_2.
    assert ((k <? 2) = true) as -> by (apply Nat.ltb_lt; lia). lia.
  - vm_compute. reflexivity.
  - vm_compute. discriminate.
Defined.

(** * Bytes after the decoded structure *)

(** A structure that lies inside [data] looks the same in [data ++ extra]. *)
Lemma structure_inside_app data extra i len :
  nth_error data i = Some len ->
  i + Byte.to_nat len + 1 <= List.length data ->
  nth_error (data ++ extra) i = Some len /\
  mfg_data_at (data ++ extra) i len = mfg_data_at data i len /\
  (0 < Byte.to_nat len ->
   has_ruuvi_id (data ++ extra) i len = has_ruuvi_id data i len).
Proof.
  intros Hlen Hin.
  assert (Hi : i < List.length data) by (apply nth_error_Some; congruence).
  assert (Hmfg : mfg_data_at (data ++ extra) i len = mfg_data_at data i len).
  { unfold mfg_data_at, slice.
    destruct (le_lt_dec (List.length data) (i + 2)) as [Hge|Hlt].
    - replace (i + Byte.to_nat len + 1 - (i + 2)) with 0 by lia.
      reflexivity.
    - rewrite skipn_app.
      replace (i + 2 - List.length data) with 0 by lia.
      cbn [skipn]. rewrite firstn_app, length_skipn.
      replace (i + Byte.to_nat len + 1 - (i + 2)
               - (List.length data - (i + 2))) with 0 by lia.
      cbn [firstn]. now rewrite app_nil_r. }
  repeat split; trivial.
  - now rewrite nth_error_app1.
  - intros Hpos. unfold has_ruuvi_id, is_manufacturer_data.
    rewrite Hmfg, nth_error_app1 by lia. reflexivity.
Qed.

(** A structure with length byte 0 has no type byte of its own and an
    empty value: it is never the vendor's. *)
Lemma empty_structure_not_vendor data i len :
  Byte.to_nat len = 0 -> has_ruuvi_id data i len = false.
Proof.
  intros H0. unfold has_ruuvi_id, mfg_data_at, slice.
  replace (i + Byte.to_nat len + 1 - (i + 2)) with 0 by lia.
  cbn [firstn bytes_eqb ruuvi_manufacturer_id].
  apply andb_false_r.
Qed.

Lemma has_ruuvi_id_inside_app data extra i len :
  nth_error data i = Some len ->
  i + Byte.to_nat len + 1 <= List.length data ->
  has_ruuvi_id (data ++ extra) i len = has_ruuvi_id data i len.
Proof.
  intros Hlen Hin.
  destruct (Nat.eq_dec (Byte.to_nat len) 0) as [H0|Hpos].
  - now rewrite !empty_structure_not_vendor.
  - apply (structure_inside_app data extra i len Hlen Hin). lia.
Qed.

Lemma passes_app data extra i j :
  passes data i j -> j <= List.length data ->
  passes (data ++ extra) i j /\ i <= j.
Proof.
  induction 1 as [i|i len j Hlen Hover Hp IH]; intros Hj.
  - split; [constructor | lia].
  - destruct (IH Hj) as [IHp Hle].
    assert (Hin : i + Byte.to_nat len + 1 <= List.length data) by lia.
    destruct (structure_inside_app data extra i len Hlen Hin)
      as (Hn & Hmfg & _).
    split; [|lia].
    apply passes_step with len; trivial.
    unfold stepped_over in *.
    rewrite Hmfg, (has_ruuvi_id_inside_app data extra i len Hlen Hin).
    exact Hover.
Qed.

(** X17: one payload yields one reading.  When the walk returns at a
    structure that lies inside the payload, whatever bytes follow that
    structure play no part: the payload with any bytes appended stores the
    same reading. *)
Theorem bytes_after_decoded_structure_ignored data extra w j len fmt :
  passes data 0 j -> nth_error data j = Some len ->
  has_ruuvi_id data j len = true ->
  nth_error (mfg_data_at data j len) 2 = Some fmt ->
  Byte.to_nat fmt = RUUVI_DATA_FORMAT ->
  j + Byte.to_nat len + 1 <= List.length data ->
  fst (while_loop (data ++ extra) 0 w) = Ok Returned /\
  scanner (snd (parse_ruuvi_data (data ++ extra) w)) =
  scanner (snd (parse_ruuvi_data data w)).
Proof.
  intros Hp Hlen Hid Hfmt Heq Hin.
  destruct (passes_app data extra 0 j Hp) as [Hp' _]; [lia|].
  destruct (structure_inside_app data extra j len Hlen Hin)
    as (Hn & Hmfg & _).
  pose proof (has_ruuvi_id_inside_app data extra j len Hlen Hin) as Hid'.
  rewrite Hid in Hid'. rewrite <- Hmfg in Hfmt.
  destruct (walk_decodes_at (data ++ extra) w j len fmt Hp' Hn Hid' Hfmt Heq)
    as [Hret ->].
  split; [assumption|].
  rewrite Hmfg in Hfmt |- *.
  now destruct (walk_decodes_at data w j len fmt Hp Hlen Hid Hfmt Heq)
    as [_ ->].
Qed.

Lemma bytes_after_decoded_structure_ignored_witness :
  fst (while_loop (fixture ++ [x03; xff; x99; x04]) 0 boot) = Ok Returned /\
  scanner (snd (parse_ruuvi_data (fixture ++ [x03; xff; x99; x04]) boot)) =
  scanner (snd (parse_ruuvi_data fixture boot)).
Proof.
  apply (bytes_after_decoded_structure_ignored
           fixture [x03; xff; x99; x04] boot 3 x0a x05);
    try reflexivity.
  apply passes_step with x02; [reflexivity | now left | apply passes_here].
Defined.

(** * The heartbeat rate over two iterations *)

(** X18: the blink interval of an iteration is 1000 ms when the iteration
    before it served a request, and 500 ms when, since then, the callback
    decoded a packet from the target. *)
Theorem heartbeat_rate_tracks_unserved_data
    mac float_repr ticks_diff dict_items now c t w now' a' p :
  served c = true ->
  let r := iteration mac float_repr ticks_diff dict_items now (Accepted c) t w in
  blink_interval
    (fst (iteration mac float_repr ticks_diff dict_items now' a' (fst r) (snd r)))
  = 1000%Z /\
  (lower (format_addr (addr p)) = lower mac ->
   fst (while_loop (adv_data p) 0 w) = Ok Returned ->
   blink_interval
     (fst (iteration mac float_repr ticks_diff dict_items now' a' (fst r)
                     (snd (ble_irq mac _IRQ_SCAN_RESULT p (snd r)))))
   = 500%Z).
Proof.
  intros Hserved. cbv zeta.
  pose proof (iteration_scanner mac float_repr ticks_diff dict_items now (Accepted c) t w)
    as Hsc. cbv beta iota zeta in Hsc. rewrite Hserved in Hsc.
  destruct (iteration mac float_repr ticks_diff dict_items now (Accepted c) t w)
    as [t1 w1]. cbn [fst snd] in *.
  split.
  - destruct (iteration_led_wire mac float_repr ticks_diff dict_items now' a' t1 w1)
      as (-> & _). now rewrite Hsc.
  - intros Hmatch Hret.
    destruct (iteration_led_wire mac float_repr ticks_diff dict_items now' a' t1
                (snd (ble_irq mac _IRQ_SCAN_RESULT p w1))) as (-> & _).
    unfold ble_irq. cbn [Z.eqb _IRQ_SCAN_RESULT Pos.eqb].
    apply String.eqb_eq in Hmatch. rewrite Hmatch.
    unfold bind. cbn [print].
    set (w2 := mkWorld _ _ _ _).
    destruct (parse_ruuvi_data_effect (adv_data p) w2)
      as [[Hno _]|[_ [d ->]]]; [|reflexivity].
    rewrite (while_loop_result_indep (adv_data p) 0 w w2), Hret in Hno.
    discriminate.
Qed.

Lemma heartbeat_rate_tracks_unserved_data_witness :
  let r := iteration "aa:bb:cc:dd:ee:ff" (fun _ => "0.0"%string) Z.sub mp_dict_items
                     2000 (Accepted plain_client) (mkTimers 0 1000)
                     fresh_world in
  blink_interval
    (fst (iteration "aa:bb:cc:dd:ee:ff" (fun _ => "0.0"%string) Z.sub mp_dict_items
                    3100 (AcceptRaises 11) (fst r) (snd r)))
  = 1000%Z.
Proof.
  apply (proj1 (heartbeat_rate_tracks_unserved_data
                  "aa:bb:cc:dd:ee:ff" (fun _ => "0.0"%string) Z.sub mp_dict_items
                  2000 plain_client (mkTimers 0 1000) fresh_world
                  3100 (AcceptRaises 11)
                  (mkScanResult 0 tag_addr 0 (-70) fixture) eq_refl)).
Defined.

Lemma walk_falls_through_iff_witness :
  fst (while_loop overlong_foreign 0 boot) = Ok Fallthrough.
Proof.
  apply (proj2 (walk_falls_through_iff overlong_foreign boot)).
  exists 31. split; [|vm_compute; lia].
  apply passes_step with x1e; [reflexivity | now left | apply passes_here].
Defined.

Lemma scan_result_is_served_witness :
  let w' := snd (iteration "AA:BB:CC:DD:EE:FF" (fun _ => "0.0"%string) Z.sub
                           mp_dict_items 2000 (Accepted client_during_scan)
                           (mkTimers 0 1000) boot) in
  exists j len members,
    passes fixture 0 j /\
    nth_error fixture j = Some len /\
    has_ruuvi_id fixture j len = true /\
    scanner w' = mkScanner (Some (reading_of (mfg_data_at fixture j len))) false /\
    Permutation members
      [ (dq ++ "temperature" ++ dq ++ ": " ++ "0.0")%string;
        (dq ++ "humidity" ++ dq ++ ": " ++ "0.0")%string;
        (dq ++ "pressure" ++ dq ++ ": " ++ "0.0")%string ] /\
    wire w' =
    wire boot ++ [response_str ("{" ++ String.concat ", " members ++ "}")] /\
    ((forall d, mp_dict_items (response (Some d)) = response (Some d)) ->
     wire w' =
     wire boot ++
     [response_str
        ("{" ++ String.concat ", "
           [ (dq ++ "temperature" ++ dq ++ ": " ++ "0.0")%string;
             (dq ++ "humidity" ++ dq ++ ": " ++ "0.0")%string;
             (dq ++ "pressure" ++ dq ++ ": " ++ "0.0")%string ]
         ++ "}")]).
Proof.
  apply (scan_result_is_served
           "AA:BB:CC:DD:EE:FF" (fun _ => "0.0"%string) Z.sub mp_dict_items
           2000 client_during_scan (mkTimers 0 1000) boot
           [] (mkScanResult 0 tag_addr 0 (-70) fixture)
           [(_IRQ_SCAN_DONE, mkScanResult 0 [] 0 0 [])]);
    try reflexivity.
  - apply mp_dict_items_response_permutation.
  - repeat constructor. cbn. discriminate.
Defined.

(** * A vendor structure in another format, concluded *)

(** C5, amended: a vendor structure whose format byte is not 5 produces no
    reading: the iteration leaves the scanner as it was, and the walk goes
    on with the structure that follows.  The outcome for the payload is the
    outcome of the walk from that next structure: it returns with the
    reading of a later structure, or it falls off the end having stepped
    over every structure that follows (nothing found), or it raises
    [IndexError] at a later structure that holds the vendor ID alone
    (caught by the method).  In the last two cases the scanner is unchanged.
    There is no outcome of its own for the other format. *)
Theorem other_format_structure_is_skipped data i len fmt w :
  nth_error data i = Some len ->
  has_ruuvi_id data i len = true ->
  nth_error (mfg_data_at data i len) 2 = Some fmt ->
  Byte.to_nat fmt <> RUUVI_DATA_FORMAT ->
  loop_body data i len w = (Ok Fallthrough, snd (print FoundManufacturerData w)) /\
  scanner (snd (loop_body data i len w)) = scanner w /\
  while_loop data i w =
  while_loop data (i + Byte.to_nat len + 1)
             (snd (print FoundManufacturerData w)) /\
  (ad_offset data i ->
   fst (while_loop data i w) = Ok Returned ->
   exists j l,
     i < j /\ ad_offset data j /\ nth_error data j = Some l /\
     scanner (snd (while_loop data i w)) =
     mkScanner (Some (reading_of (mfg_data_at data j l))) true) /\
  fst (while_loop data i w) = fst (while_loop data (i + Byte.to_nat len + 1) w) /\
  (fst (while_loop data i w) = Ok Returned \/
   (fst (while_loop data i w) = Ok Fallthrough /\
    scanner (snd (while_loop data i w)) = scanner w /\
    exists j, passes data (i + Byte.to_nat len + 1) j /\ List.length data <= j) \/
   (fst (while_loop data i w) = Raise IndexError /\
    scanner (snd (while_loop data i w)) = scanner w /\
    exists j l,
      passes data (i + Byte.to_nat len + 1) j /\ nth_error data j = Some l /\
      has_ruuvi_id data j l = true /\
      mfg_data_at data j l = ruuvi_manufacturer_id)).
Proof.
  intros Hlen Hid Hfmt Hne.
  assert (Hbody : loop_body data i len w =
                  (Ok Fallthrough, snd (print FoundManufacturerData w))).
  { rewrite loop_body_spec, Hid. cbv zeta. rewrite Hfmt.
    apply Nat.eqb_neq in Hne. now rewrite Hne. }
  pose proof (while_loop_other data i len fmt w Hlen Hid Hfmt Hne) as Hwalk.
  assert (Hfst : fst (while_loop data i w) =
                 fst (while_loop data (i + Byte.to_nat len + 1) w))
    by (rewrite Hwalk; apply while_loop_result_indep).
  split; [assumption|]. split; [now rewrite Hbody|].
  split; [assumption|]. split; [|split; [assumption|]].
  - intros Hoff Hret. rewrite Hwalk in Hret |- *.
    destruct (while_loop_returned data (i + Byte.to_nat len + 1)
                (snd (print FoundManufacturerData w)))
      as (j & l & _ & Hj & Hle & Hl & _ & _ & _ & Hsc); trivial.
    + now apply ad_next with i len.
    + exists j, l. repeat split; trivial. lia.
  - destruct (while_loop_frame data i w) as (_ & _ & Hsame & _).
    pose proof (walk_verdict_sound data (i + Byte.to_nat len + 1) w) as Hv.
    rewrite <- Hfst in Hv.
    destruct (fst (while_loop data i w)) as [[|]|e].
    + right; left. repeat split; auto.
    + now left.
    + destruct Hv as (-> & j & l & Hp & Hl & Hidj & Hn).
      right; right. repeat split; auto.
      exists j, l. repeat split; trivial.
      now apply vendor_id_without_format.
Qed.

Lemma other_format_structure_is_skipped_witness :
  loop_body format3_then_bare_id 0 x04 fresh_world =
  (Ok Fallthrough, snd (print FoundManufacturerData fresh_world)) /\
  scanner (snd (loop_body format3_then_bare_id 0 x04 fresh_world))
  = scanner fresh_world /\
  while_loop format3_then_bare_id 0 fresh_world =
  while_loop format3_then_bare_id (0 + Byte.to_nat x04 + 1)
             (snd (print FoundManufacturerData fresh_world)) /\
  (ad_offset format3_then_bare_id 0 ->
   fst (while_loop format3_then_bare_id 0 fresh_world) = Ok Returned ->
   exists j l,
     0 < j /\ ad_offset format3_then_bare_id j /\
     nth_error format3_then_bare_id j = Some l /\
     scanner (snd (while_loop format3_then_bare_id 0 fresh_world)) =
     mkScanner (Some (reading_of (mfg_data_at format3_then_bare_id j l))) true) /\
  fst (while_loop format3_then_bare_id 0 fresh_world) =
  fst (while_loop format3_then_bare_id (0 + Byte.to_nat x04 + 1) fresh_world) /\
  (fst (while_loop format3_then_bare_id 0 fresh_world) = Ok Returned \/
   (fst (while_loop format3_then_bare_id 0 fresh_world) = Ok Fallthrough /\
    scanner (snd (while_loop format3_then_bare_id 0 fresh_world))
    = scanner fresh_world /\
    exists j, passes format3_then_bare_id (0 + Byte.to_nat x04 + 1) j /\
              List.length format3_then_bare_id <= j) \/
   (fst (while_loop format3_then_bare_id 0 fresh_world) = Raise IndexError /\
    scanner (snd (while_loop format3_then_bare_id 0 fresh_world))
    = scanner fresh_world /\
    exists j l,
      passes format3_then_bare_id (0 + Byte.to_nat x04 + 1) j /\
      nth_error format3_then_bare_id j = Some l /\
      has_ruuvi_id format3_then_bare_id j l = true /\
      mfg_data_at format3_then_bare_id j l = ruuvi_manufacturer_id)).
Proof.
  apply (other_format_structure_is_skipped format3_then_bare_id 0 x04 x03
                                           fresh_world).
  - reflexivity.
  - reflexivity.
  - reflexivity.
  - vm_compute. lia.
Defined.

(** The three outcomes after a vendor structure in format 3: a reading
    from the next structure, nothing found, and the caught [IndexError]. *)
Example other_format_outcomes :
  fst (while_loop format3_then_format5 0 boot) = Ok Returned /\
  fst (while_loop [x04; xff; x99; x04; x03] 0 boot) = Ok Fallthrough /\
  fst (while_loop format3_then_bare_id 0 boot) = Raise IndexError /\
  stdout (snd (parse_ruuvi_data format3_then_bare_id boot)) =
  [ParsingData format3_then_bare_id; FoundManufacturerData;
   FoundManufacturerData; ErrorParsingData IndexError].
Proof. repeat split; reflexivity. Qed.
